(** * The storefront API client and its auth hook

    A shallow embedding of
    - [src/api/apiClient.js]  (class [ApiClient]: [request], [login],
      [register], [getCurrentUser], [logout] and the pass-through methods),
    - [src/api/config.js]     ([API_CONFIG], [ENDPOINTS]),
    - [src/hooks/useAuth.js]  (the [useAuth] hook),
    together with the properties the specification states about them.

    JavaScript values are an inductive type, objects used as string-keyed
    maps are [gmap]s, and the asynchronous methods are written in a small
    state-and-exception monad: [await] is sequencing, [throw] and
    [try]/[catch]/[finally] are the monad's own operations.  The browser
    ([fetch], [localStorage], [console], [JSON.stringify],
    [URLSearchParams], [import.meta.env]) is the environment: its state is
    part of the world the monad threads, and what it answers is a parameter
    of the development. *)

From stdpp Require Import gmap strings list pretty.

Open Scope string_scope.
Set Warnings "-register-all".

(** ** Errors and outcomes *)

(** A JavaScript [Error] object, as far as the program looks at it: its
    constructor name and its [message]. *)
Record js_error := mkError { err_name : string; err_message : string }.

(** [new Error(msg)] *)
Definition Error (msg : string) : js_error := mkError "Error" msg.
Definition TypeError (msg : string) : js_error := mkError "TypeError" msg.

(** How a call ends: it returns a value or it throws. *)
Inductive outcome (A : Type) : Type :=
| Return (a : A)
| Throw (e : js_error).
Arguments Return {A} a.
Arguments Throw {A} e.

(** Synchronous, state-free evaluation that may throw: [js_error + A]. *)
Definition ebind {A B} (x : js_error + A) (k : A → js_error + B) : js_error + B :=
  match x with
  | inl e => inl e
  | inr a => k a
  end.

(** ** Strings *)

(** [s.includes(pat)] *)
Fixpoint includes (pat s : string) : bool :=
  String.prefix pat s ||
  match s with
  | EmptyString => false
  | String _ s' => includes pat s'
  end.

(** ** The monad of the asynchronous methods *)

(** A computation over a state [S]: from the state before to the outcome and
    the state after.  State changes made before a [throw] are kept, as in
    JavaScript. *)
Definition M (S A : Type) : Type := S → outcome A * S.

Global Instance M_ret {S} : MRet (M S) := λ A a s, (Return a, s).

Global Instance M_bind {S} : MBind (M S) := λ A B k m s,
  match m s with
  | (Return a, s') => k a s'
  | (Throw e, s') => (Throw e, s')
  end.

(** [throw e] *)
Definition throw {S A} (e : js_error) : M S A := λ s, (Throw e, s).

(** [try { body } catch (err) { handler err }] *)
Definition try_catch {S A} (body : M S A) (handler : js_error → M S A) : M S A :=
  λ s, match body s with
       | (Return a, s') => (Return a, s')
       | (Throw e, s') => handler e s'
       end.

(** [try { body } finally { fin }]: [fin] runs on both ways out; if [fin]
    itself throws, that error replaces the outcome of [body]. *)
Definition try_finally {S A} (body : M S A) (fin : M S unit) : M S A :=
  λ s, match body s with
       | (o, s') =>
           match fin s' with
           | (Return _, s'') => (o, s'')
           | (Throw e, s'') => (Throw e, s'')
           end
       end.

(** Evaluation of an expression that may throw, inside a method. *)
Definition eval {S A} (x : js_error + A) : M S A :=
  match x with
  | inl e => throw e
  | inr a => mret a
  end.

Definition gets {S A} (f : S → A) : M S A := λ s, (Return (f s), s).
Definition modify {S} (f : S → S) : M S unit := λ s, (Return tt, f s).

(** Running a computation of a component inside a larger state. *)
Definition lift {S T A} (get : T → S) (set : S → T → T) (m : M S A) : M T A :=
  λ t, match m (get t) with
       | (o, s') => (o, set s' t)
       end.

(** ** HTTP as the client sees it *)

(** A JavaScript object used as a bag of headers. *)
Abbreviation headers := (gmap string string).

(** What [fetch(url, config)] is called with. *)
Record http_request := mkRequest {
  req_url : string;
  req_method : option string;      (* [config.method]; absent means GET *)
  req_body : option string;        (* [config.body] *)
  req_headers : headers;           (* [config.headers] *)
}.

(** The options bag of [request]: the keys the callers use.  An absent key
    is [None]. *)
Record options := mkOptions {
  opt_method : option string;
  opt_body : option string;
  opt_headers : option headers;
}.

(** [{}], the default of the [options] parameter *)
Definition no_options : options := mkOptions None None None.

(** ** JavaScript values *)

(** The values the program handles: what [JSON.parse] produces, plus
    [undefined].  Numbers are kept abstract ([num]): the program only tests
    them for truthiness and turns them into text.  An object is the list of
    its own properties (distinct keys, in insertion order). *)
Inductive value {num : Type} : Type :=
| VUndefined
| VNull
| VBool (b : bool)
| VNum (n : num)
| VStr (s : string)
| VArr (elems : list value)
| VObj (props : list (string * value)).
Arguments value num : clear implicits.

(** An own property of an object literal. *)
Fixpoint own_property {num} (props : list (string * value num)) (key : string)
  : option (value num) :=
  match props with
  | [] => None
  | (k, v) :: rest => if String.eqb k key then Some v else own_property rest key
  end.

(** The answer of the network to one [fetch]. *)
Record response {num : Type} := mkResponse {
  status : Z;                           (* [response.status] *)
  statusText : string;                  (* [response.statusText] *)
  content_type : option string;         (* [response.headers.get('content-type')] *)
  json : js_error + value num;          (* what [response.json()] settles to *)
}.
Arguments response num : clear implicits.
Arguments mkResponse {num} _ _ _ _.

(** [response.ok]: the status is in the range 200-299. *)
Definition ok {num} (r : response num) : bool :=
  bool_decide (200 ≤ status r ≤ 299)%Z.

(** [fetch] rejects (a network-level failure) or resolves to a response,
    whatever its status. *)
Inductive fetch_outcome {num : Type} : Type :=
| FetchReject (e : js_error)
| FetchResolve (r : response num).
Arguments fetch_outcome num : clear implicits.

(** ** The state of the page *)

(** What the API client reads and writes. *)
Record world {num : Type} := mkWorld {
  token : value num;                    (* [this.token] of the client *)
  localStorage : gmap string string;    (* the browser's persistent storage *)
  sent : list http_request;             (* the calls of [fetch], oldest first *)
  console : list (string * js_error);   (* the calls of [console.error] *)
}.
Arguments world num : clear implicits.
Arguments mkWorld {num} _ _ _ _.

Definition set_token {num} (v : value num) (w : world num) : world num :=
  mkWorld v (localStorage w) (sent w) (console w).
Definition set_localStorage {num} (f : gmap string string → gmap string string)
    (w : world num) : world num :=
  mkWorld (token w) (f (localStorage w)) (sent w) (console w).
Definition log_sent {num} (r : http_request) (w : world num) : world num :=
  mkWorld (token w) (localStorage w) (sent w ++ [r]) (console w).
Definition log_console {num} (label : string) (e : js_error) (w : world num)
  : world num :=
  mkWorld (token w) (localStorage w) (sent w) (console w ++ [(label, e)]).

(** ** A concrete browser, for the examples

    The properties below hold for every number type, serialiser and
    network.  The examples need one of each. *)

Definition Z_truthy (n : Z) : bool := negb (n =? 0)%Z.
Definition Z_to_string (n : Z) : string := pretty n.

Definition quote (s : string) : string :=
  let mark := String (Ascii.ascii_of_nat 34) "" in mark ++ s ++ mark.

(** [JSON.stringify] on integers and on strings that need no escapes. *)
Fixpoint sample_text (v : value Z) : string :=
  match v with
  | VUndefined | VNull => "null"
  | VBool b => if b then "true" else "false"
  | VNum n => pretty n
  | VStr s => quote s
  | VArr elems => "[" ++ String.concat "," (map sample_text elems) ++ "]"
  | VObj props =>
      "{" ++ String.concat ","
        ((fix members (l : list (string * value Z)) : list string :=
            match l with
            | [] => []
            | (k, VUndefined) :: rest => members rest
            | (k, x) :: rest => (quote k ++ ":" ++ sample_text x) :: members rest
            end) props) ++ "}"
  end.

Definition sample_stringify (v : value Z) : option string :=
  match v with
  | VUndefined => None
  | _ => Some (sample_text v)
  end.

(** [URLSearchParams] on an object with string values. *)
Definition sample_URLSearchParams (v : value Z) : js_error + string :=
  match v with
  | VObj props =>
      inr (String.concat "&"
             (map (λ kv, kv.1 ++ "=" ++ match kv.2 with VStr s => s | _ => "" end)
                  props))
  | _ => inl (TypeError "object is not iterable")
  end.

(** A scripted network: the n-th request is answered by the n-th entry,
    and the network is down once the script is over. *)
Definition answers (script : list (fetch_outcome Z)) (log : list http_request)
  : fetch_outcome Z :=
  default (FetchReject (TypeError "Failed to fetch")) (script !! (length log - 1)).

Definition json_response (code : Z) (text : string) (body : value Z) : response Z :=
  mkResponse code text (Some "application/json") (inr body).

Section Client.

Context {num : Type}.

(** Truthiness and text of a number. *)
Variable num_truthy : num → bool.
Variable num_to_string : num → string.

(** [JSON.stringify(v)]; [None] when the result is [undefined]. *)
Variable JSON_stringify : value num → option string.

(** [new URLSearchParams(v)] followed by its conversion to text; the
    constructor throws on some arguments. *)
Variable URLSearchParams : value num → js_error + string.

(** [import.meta.env] *)
Variable env : gmap string string.

(** The network: what [fetch] settles to, given every request sent so far
    with the present one last. *)
Variable network : list http_request → fetch_outcome num.

Abbreviation value := (value num).
Abbreviation world := (world num).
Abbreviation response := (response num).

(** *** Conversions *)

(** [if (v)], [v || w]: truthiness. *)
Definition js_truthy (v : value) : bool :=
  match v with
  | VUndefined | VNull => false
  | VBool b => b
  | VNum n => num_truthy n
  | VStr s => negb (String.eqb s "")
  | VArr _ | VObj _ => true
  end.

(** [`${v}`], [String(v)]: conversion to text.  An array joins the texts of
    its elements with commas, [null] and [undefined] elements giving the
    empty text.  A plain object gives ["[object Object]"], unless it has an
    own property [toString]: parsed data is never callable, and the
    conversion then throws. *)
Fixpoint to_string (v : value) : js_error + string :=
  match v with
  | VUndefined => inr "undefined"
  | VNull => inr "null"
  | VBool b => inr (if b then "true" else "false")
  | VNum n => inr (num_to_string n)
  | VStr s => inr s
  | VArr elems =>
      let elem_text (x : value) : js_error + string :=
        match x with
        | VUndefined | VNull => inr ""
        | _ => to_string x
        end in
      (fix join (l : list value) : js_error + string :=
         match l with
         | [] => inr ""
         | [x] => elem_text x
         | x :: rest =>
             ebind (elem_text x) (λ s,
             ebind (join rest) (λ r, inr (s ++ "," ++ r)))
         end) elems
  | VObj props =>
      match own_property props "toString" with
      | Some _ => inl (TypeError "Cannot convert object to primitive value")
      | None => inr "[object Object]"
      end
  end.

(** [v.key], for a key that no prototype defines ([detail],
    [access_token], [username], [password]): reading a property of [null]
    or [undefined] throws, an object gives its own property, anything else
    gives [undefined]. *)
Definition get_prop (v : value) (key : string) : js_error + value :=
  match v with
  | VUndefined =>
      inl (TypeError ("Cannot read properties of undefined (reading '" ++ key ++ "')"))
  | VNull =>
      inl (TypeError ("Cannot read properties of null (reading '" ++ key ++ "')"))
  | VObj props => inr (default VUndefined (own_property props key))
  | _ => inr VUndefined
  end.

(** *** The browser *)

(** [localStorage.getItem(key)]: the stored text, or [null]. *)
Definition getItem (key : string) : M world value :=
  gets (λ w, match localStorage w !! key with
             | Some s => VStr s
             | None => VNull
             end).

(** [localStorage.setItem(key, v)]: stores the text of [v]. *)
Definition setItem (key : string) (v : value) : M world unit :=
  s ← eval (to_string v);
  modify (set_localStorage (insert key s)).

(** [localStorage.removeItem(key)] *)
Definition removeItem (key : string) : M world unit :=
  modify (set_localStorage (delete key)).

(** [console.error(label, err)] *)
Definition console_error (label : string) (e : js_error) : M world unit :=
  modify (log_console label e).

(** [await fetch(url, config)]: the request is recorded and the network
    answers. *)
Definition fetch (req : http_request) : M world response :=
  λ w, let w' := log_sent req w in
       match network (sent w') with
       | FetchReject e => (Throw e, w')
       | FetchResolve r => (Return r, w')
       end.

(** *** config.js *)

(** [import.meta.env.NAME || fallback] *)
Definition env_or (name fallback : string) : string :=
  match env !! name with
  | Some s => if String.eqb s "" then fallback else s
  | None => fallback
  end.

(** [API_CONFIG]: one base address per service. *)
Definition USER_SERVICE := env_or "VITE_USER_SERVICE_URL" "http://localhost:8000".
Definition PRODUCT_SERVICE := env_or "VITE_PRODUCT_SERVICE_URL" "http://localhost:8001".
Definition ORDER_SERVICE := env_or "VITE_ORDER_SERVICE_URL" "http://localhost:8002".
Definition PAYMENT_SERVICE := env_or "VITE_PAYMENT_SERVICE_URL" "http://localhost:8003".
Definition CART_SERVICE := env_or "VITE_CART_SERVICE_URL" "http://localhost:8004".
Definition INVENTORY_SERVICE := env_or "VITE_INVENTORY_SERVICE_URL" "http://localhost:8005".
Definition NOTIFICATION_SERVICE :=
  env_or "VITE_NOTIFICATION_SERVICE_URL" "http://localhost:8006".

(** A template literal [`prefix${v}suffix`]. *)
Definition template (before : string) (v : value) (after : string)
  : js_error + string :=
  ebind (to_string v) (λ s, inr (before ++ s ++ after)).

(** [ENDPOINTS]: the paths, grouped by service as in the source. *)
Definition AUTH_LOGIN := "/auth/login".
Definition AUTH_REGISTER := "/auth/register".
Definition AUTH_PROFILE := "/profile".

Definition PRODUCTS_LIST := "/products".
Definition PRODUCTS_DETAIL (id : value) := template "/products/" id "".
Definition PRODUCTS_CATEGORIES := "/categories".

Definition ORDERS_CREATE := "/orders".
Definition ORDERS_LIST := "/orders".
Definition ORDERS_DETAIL (id : value) := template "/orders/" id "".
Definition ORDERS_STATUS (id : value) := template "/orders/" id "/status".
Definition ORDERS_USER_ORDERS (userId : value) := template "/users/" userId "/orders".

Definition PAYMENTS_CREATE := "/payments".
Definition PAYMENTS_DETAIL (id : value) := template "/payments/" id "".
Definition PAYMENTS_METHODS := "/payment-methods".
Definition PAYMENTS_USER_METHODS (userId : value) :=
  template "/users/" userId "/payment-methods".

Definition CART_ITEMS := "/cart/items".
Definition CART_ADD_ITEM := "/cart/items".
Definition CART_UPDATE_ITEM (id : value) := template "/cart/items/" id "".
Definition CART_REMOVE_ITEM (id : value) := template "/cart/items/" id "".
Definition CART_CLEAR := "/cart/clear".

Definition INVENTORY_STOCK (id : value) := template "/products/" id "/stock".
Definition INVENTORY_UPDATE (id : value) := template "/products/" id "/inventory".

Definition NOTIFICATIONS_SEND := "/notifications".
Definition NOTIFICATIONS_USER_NOTIFICATIONS (userId : value) :=
  template "/notifications/" userId "".

(** *** apiClient.js: class [ApiClient] *)

(** The constructor reads the stored credential: [new ApiClient()] in a
    browser whose storage is [storage], before any request. *)
Definition new_ApiClient (storage : gmap string string) : world :=
  mkWorld (match storage !! "token" with
           | Some s => VStr s
           | None => VNull
           end) storage [] [].

(** The object literal [{ headers: { 'Content-Type': 'application/json',
    ...options.headers }, ...options }].  The inner spread lets the
    caller's headers win over the default; the outer spread then copies
    every key of [options], its [headers] key included, over the object
    built so far. *)
Definition build_config (url : string) (opts : options) : http_request :=
  let merged : headers :=
    default ∅ (opt_headers opts) ∪ {[ "Content-Type" := "application/json" ]} in
  {| req_url := url;
     req_method := opt_method opts;
     req_body := opt_body opts;
     req_headers := default merged (opt_headers opts) |}.

(** [config.headers.Authorization = value] *)
Definition set_Authorization (v : string) (config : http_request) : http_request :=
  {| req_url := req_url config;
     req_method := req_method config;
     req_body := req_body config;
     req_headers := <[ "Authorization" := v ]> (req_headers config) |}.

(** [!contentType || !contentType.includes('application/json')] *)
Definition not_json (contentType : option string) : bool :=
  match contentType with
  | None => true
  | Some ct => String.eqb ct "" || negb (includes "application/json" ct)
  end.

(** Lines 21-24 of [request]: [if (this.token) config.headers.Authorization
    = `Bearer ${this.token}`].  When [options] has a [headers] key the
    object written to is the caller's own. *)
Definition attach_credential (tok : value) (config : http_request)
  : js_error + http_request :=
  if js_truthy tok
  then ebind (template "Bearer " tok "") (λ bearer,
       inr (set_Authorization bearer config))
  else inr config.

(** Lines 29-41 of [request], what the [try] block does with the response
    once [fetch] has resolved: the content-type check, [response.json()],
    the status check. *)
Definition read_response (response : response) : js_error + value :=
  let contentType := content_type response in
  if not_json contentType
  then inl (Error ("Server returned " ++ pretty (status response) ++ ": "
                   ++ statusText response))
  else
    ebind (json response) (λ data,
    if negb (ok response)
    then
      ebind (get_prop data "detail") (λ detail,
      ebind (if js_truthy detail
             then to_string detail
             else inr ("HTTP error! status: " ++ pretty (status response)))
            (λ message, inl (Error message)))
    else inr data).

(** [async request(serviceUrl, endpoint, options = {})] *)
Definition request (serviceUrl endpoint : string) (opts : options) : M world value :=
  let url := serviceUrl ++ endpoint in
  let config := build_config url opts in
  tok ← gets token;
  config ← eval (attach_credential tok config);
  try_catch
    (response ← fetch config;
     eval (read_response response))
    (λ error,
       console_error "API request failed:" error;;
       throw error).

(** [{ method, body: JSON.stringify(data) }] *)
Definition with_body (method : string) (data : value) : options :=
  mkOptions (Some method) (JSON_stringify data) None.

(** [async login(username, password)] *)
Definition login (username password : value) : M world value :=
  response ← request USER_SERVICE AUTH_LOGIN
    (with_body "POST" (VObj [("username", username); ("password", password)]));
  access_token ← eval (get_prop response "access_token");
  (if js_truthy access_token
   then modify (set_token access_token);;
        tok ← gets token;
        setItem "token" tok
   else mret tt);;
  mret response.

(** [async register(userData)] *)
Definition register (userData : value) : M world value :=
  response ← request USER_SERVICE AUTH_REGISTER (with_body "POST" userData);
  mret response.

(** [async getCurrentUser()] *)
Definition getCurrentUser : M world value :=
  request USER_SERVICE AUTH_PROFILE no_options.

(** [logout()] *)
Definition logout : M world unit :=
  modify (set_token VNull);;
  removeItem "token".

(** *** The pass-through methods *)

(** User management service *)
Definition getUserProfile (userId : value) : M world value :=
  endpoint ← eval (template "/users/" userId "");
  request USER_SERVICE endpoint no_options.

Definition updateUserProfile (userId userData : value) : M world value :=
  endpoint ← eval (template "/users/" userId "");
  request USER_SERVICE endpoint (with_body "PUT" userData).

(** Product catalog service; [params] defaults to [{}]. *)
Definition getProducts (params : value) : M world value :=
  let params := match params with VUndefined => VObj [] | _ => params end in
  queryParams ← eval (URLSearchParams params);
  request PRODUCT_SERVICE (PRODUCTS_LIST ++ "?" ++ queryParams) no_options.

Definition getProduct (productId : value) : M world value :=
  endpoint ← eval (PRODUCTS_DETAIL productId);
  request PRODUCT_SERVICE endpoint no_options.

Definition getCategories : M world value :=
  request PRODUCT_SERVICE PRODUCTS_CATEGORIES no_options.

(** Order management service *)
Definition createOrder (orderData : value) : M world value :=
  request ORDER_SERVICE ORDERS_CREATE (with_body "POST" orderData).

Definition getOrder (orderId : value) : M world value :=
  endpoint ← eval (ORDERS_DETAIL orderId);
  request ORDER_SERVICE endpoint no_options.

Definition getUserOrders (userId : value) : M world value :=
  endpoint ← eval (ORDERS_USER_ORDERS userId);
  request ORDER_SERVICE endpoint no_options.

Definition updateOrderStatus (orderId status : value) : M world value :=
  endpoint ← eval (ORDERS_STATUS orderId);
  request ORDER_SERVICE endpoint (with_body "PUT" (VObj [("status", status)])).

(** Payment service *)
Definition processPayment (paymentData : value) : M world value :=
  request PAYMENT_SERVICE PAYMENTS_CREATE (with_body "POST" paymentData).

Definition getPayment (paymentId : value) : M world value :=
  endpoint ← eval (PAYMENTS_DETAIL paymentId);
  request PAYMENT_SERVICE endpoint no_options.

Definition getPaymentMethods (userId : value) : M world value :=
  endpoint ← eval (PAYMENTS_USER_METHODS userId);
  request PAYMENT_SERVICE endpoint no_options.

Definition addPaymentMethod (paymentMethodData : value) : M world value :=
  request PAYMENT_SERVICE PAYMENTS_METHODS (with_body "POST" paymentMethodData).

(** Cart service *)
Definition getCartItems : M world value :=
  request CART_SERVICE CART_ITEMS no_options.

Definition addToCart (itemData : value) : M world value :=
  request CART_SERVICE CART_ADD_ITEM (with_body "POST" itemData).

Definition updateCartItem (itemId quantity : value) : M world value :=
  endpoint ← eval (CART_UPDATE_ITEM itemId);
  request CART_SERVICE endpoint (with_body "PUT" (VObj [("quantity", quantity)])).

Definition removeFromCart (itemId : value) : M world value :=
  endpoint ← eval (CART_REMOVE_ITEM itemId);
  request CART_SERVICE endpoint (mkOptions (Some "DELETE") None None).

Definition clearCart : M world value :=
  request CART_SERVICE CART_CLEAR (mkOptions (Some "DELETE") None None).

(** Inventory service *)
Definition getInventory (productId : value) : M world value :=
  endpoint ← eval (INVENTORY_STOCK productId);
  request INVENTORY_SERVICE endpoint no_options.

Definition updateInventory (productId inventoryData : value) : M world value :=
  endpoint ← eval (INVENTORY_UPDATE productId);
  request INVENTORY_SERVICE endpoint (with_body "PATCH" inventoryData).

(** Notification service *)
Definition sendNotification (notificationData : value) : M world value :=
  request NOTIFICATION_SERVICE NOTIFICATIONS_SEND (with_body "POST" notificationData).

Definition getUserNotifications (userId : value) : M world value :=
  endpoint ← eval (NOTIFICATIONS_USER_NOTIFICATIONS userId);
  request NOTIFICATION_SERVICE endpoint no_options.

(** One call of a method of the client that reaches the network, with its
    arguments.  (A vocabulary for the statements below; [logout], which
    does not, is kept apart.) *)
Inductive api_call : Type :=
| Login (username password : value)
| Register (userData : value)
| GetCurrentUser
| GetUserProfile (userId : value)
| UpdateUserProfile (userId userData : value)
| GetProducts (params : value)
| GetProduct (productId : value)
| GetCategories
| CreateOrder (orderData : value)
| GetOrder (orderId : value)
| GetUserOrders (userId : value)
| UpdateOrderStatus (orderId status : value)
| ProcessPayment (paymentData : value)
| GetPayment (paymentId : value)
| GetPaymentMethods (userId : value)
| AddPaymentMethod (paymentMethodData : value)
| GetCartItems
| AddToCart (itemData : value)
| UpdateCartItem (itemId quantity : value)
| RemoveFromCart (itemId : value)
| ClearCart
| GetInventory (productId : value)
| UpdateInventory (productId inventoryData : value)
| SendNotification (notificationData : value)
| GetUserNotifications (userId : value).

Definition perform (c : api_call) : M world value :=
  match c with
  | Login u p => login u p
  | Register d => register d
  | GetCurrentUser => getCurrentUser
  | GetUserProfile i => getUserProfile i
  | UpdateUserProfile i d => updateUserProfile i d
  | GetProducts q => getProducts q
  | GetProduct i => getProduct i
  | GetCategories => getCategories
  | CreateOrder d => createOrder d
  | GetOrder i => getOrder i
  | GetUserOrders i => getUserOrders i
  | UpdateOrderStatus i s => updateOrderStatus i s
  | ProcessPayment d => processPayment d
  | GetPayment i => getPayment i
  | GetPaymentMethods i => getPaymentMethods i
  | AddPaymentMethod d => addPaymentMethod d
  | GetCartItems => getCartItems
  | AddToCart d => addToCart d
  | UpdateCartItem i q => updateCartItem i q
  | RemoveFromCart i => removeFromCart i
  | ClearCart => clearCart
  | GetInventory i => getInventory i
  | UpdateInventory i d => updateInventory i d
  | SendNotification d => sendNotification d
  | GetUserNotifications i => getUserNotifications i
  end.

(** *** hooks/useAuth.js *)

(** The state of the page around one use of the hook: the browser and the
    client's field as above, the properties assigned to the class object
    [ApiClient] itself, the three state variables of [useAuth], and the
    rejections of promises that nobody awaits. *)
Record page := mkPage {
  browser : world;
  statics : gmap string value;          (* own properties set on the class *)
  user : value;                         (* [useState(null)] *)
  loading : bool;                       (* [useState(true)] *)
  error : value;                        (* [useState(null)] *)
  unhandled : list js_error;
}.

Definition set_browser (w : world) (p : page) : page :=
  mkPage w (statics p) (user p) (loading p) (error p) (unhandled p).
Definition set_static (key : string) (v : value) (p : page) : page :=
  mkPage (browser p) (<[ key := v ]> (statics p)) (user p) (loading p) (error p)
         (unhandled p).
Definition log_unhandled (e : js_error) (p : page) : page :=
  mkPage (browser p) (statics p) (user p) (loading p) (error p) (unhandled p ++ [e]).

(** The page when the hook is first used. *)
Definition initial_page (w : world) : page := mkPage w ∅ VNull true VNull [].

Definition setUser (v : value) : M page unit :=
  modify (λ p, mkPage (browser p) (statics p) v (loading p) (error p) (unhandled p)).
Definition setLoading (b : bool) : M page unit :=
  modify (λ p, mkPage (browser p) (statics p) (user p) b (error p) (unhandled p)).
Definition setError (v : value) : M page unit :=
  modify (λ p, mkPage (browser p) (statics p) (user p) (loading p) v (unhandled p)).

(** A method of the client, or a browser call, run from the hook. *)
Definition in_browser {A} (m : M world A) : M page A := lift browser set_browser m.

(** Calling an async function without awaiting it: the caller goes on, and
    a rejection is left unhandled. *)
Definition unawaited {A} (m : M page A) : M page unit :=
  λ p, match m p with
       | (Return _, p') => (Return tt, p')
       | (Throw e, p') => (Return tt, log_unhandled e p')
       end.

(** What the hook uses of the object it imports as [apiClient]. *)
Record client_object := mkClientObject {
  assign_token : value → M page unit;         (* [apiClient.token = v] *)
  call_getCurrentUser : M page value;         (* [apiClient.getCurrentUser()] *)
  call_login : value → value → M page value;  (* [apiClient.login(u, p)] *)
  call_register : value → M page value;       (* [apiClient.register(d)] *)
  call_logout : M page unit;                  (* [apiClient.logout()] *)
}.

(** An instance, [new ApiClient()]: the members are the methods above. *)
Definition ApiClient_instance : client_object :=
  {| assign_token v := in_browser (modify (set_token v));
     call_getCurrentUser := in_browser getCurrentUser;
     call_login u p := in_browser (login u p);
     call_register d := in_browser (register d);
     call_logout := in_browser logout |}.

(** [obj.name(...)] on the class object: the methods of a class live on its
    prototype, the class object has none of them as a property, and calling
    [undefined] throws. *)
Definition not_a_function {A} (name : string) : M page A :=
  throw (TypeError ("apiClient." ++ name ++ " is not a function")).

(** The class [ApiClient] itself, as an object: an assignment creates a
    static property. *)
Definition ApiClient_class : client_object :=
  {| assign_token v := modify (set_static "token" v);
     call_getCurrentUser := not_a_function "getCurrentUser";
     call_login _ _ := not_a_function "login";
     call_register _ := not_a_function "register";
     call_logout := not_a_function "logout" |}.

(** [export default ApiClient;] in apiClient.js and
    [import apiClient from '../api/apiClient'] in useAuth.js: the name
    [apiClient] of the hook is bound to the class. *)
Definition apiClient : client_object := ApiClient_class.

Section Hook.

(** The hook is written against the object it imports. *)
Variable imported : client_object.

(** [const getCurrentUser = async () => { try ... catch ... finally ... }] *)
Definition useAuth_getCurrentUser : M page unit :=
  try_finally
    (try_catch
       (userData ← call_getCurrentUser imported;
        setUser userData)
       (λ err,
          in_browser (console_error "Failed to get current user:" err);;
          call_logout imported))
    (setLoading false).

(** The effect run once when the component mounts. *)
Definition useAuth_effect : M page unit :=
  tok ← in_browser (getItem "token");
  if js_truthy tok
  then assign_token imported tok;;
       unawaited useAuth_getCurrentUser
  else setLoading false.

(** [const login = async (username, password) => ...] *)
Definition useAuth_login (username password : value) : M page value :=
  try_catch
    (setError VNull;;
     response ← call_login imported username password;
     useAuth_getCurrentUser;;
     mret response)
    (λ err,
       setError (VStr (err_message err));;
       throw err).

(** [const register = async (userData) => ...] *)
Definition useAuth_register (userData : value) : M page value :=
  try_catch
    (setError VNull;;
     response ← call_register imported userData;
     username ← eval (get_prop userData "username");
     password ← eval (get_prop userData "password");
     useAuth_login username password;;
     mret response)
    (λ err,
       setError (VStr (err_message err));;
       throw err).

(** [const logout = () => ...] *)
Definition useAuth_logout : M page unit :=
  call_logout imported;;
  setUser VNull.

End Hook.

(** *** hooks/useAuth.js: the data hooks *)

(** What [useProducts] and [useOrders] use of the object they import as
    [apiClient]. *)
Record data_object := mkDataObject {
  call_getProducts : value → M page value;     (* [apiClient.getProducts(f)] *)
  call_getCategories : M page value;           (* [apiClient.getCategories()] *)
  call_getUserOrders : value → M page value;   (* [apiClient.getUserOrders(id)] *)
}.

Definition ApiClient_instance_data : data_object :=
  {| call_getProducts f := in_browser (getProducts f);
     call_getCategories := in_browser getCategories;
     call_getUserOrders i := in_browser (getUserOrders i) |}.

Definition ApiClient_class_data : data_object :=
  {| call_getProducts _ := not_a_function "getProducts";
     call_getCategories := not_a_function "getCategories";
     call_getUserOrders _ := not_a_function "getUserOrders" |}.

(** A hook keeps state of its own, [S], beside the page. *)
Definition on_page {S A} (m : M page A) : M (page * S) A :=
  lift fst (λ p ps, (p, ps.2)) m.
Definition set_state {S} (f : S → S) : M (page * S) unit :=
  modify (λ ps, (ps.1, f ps.2)).

(** [useApi]: [data], [loading], [error]. *)
Record api_state := mkApiState {
  api_data : value;                     (* [useState(null)] *)
  api_loading : bool;                   (* [useState(true)] *)
  api_error : value;                    (* [useState(null)] *)
}.

(** [const fetchData = async () => ...] of [useApi(apiCall)] *)
Definition useApi_fetchData (apiCall : M page value) : M (page * api_state) unit :=
  try_finally
    (try_catch
       (set_state (λ s, mkApiState (api_data s) true (api_error s));;
        set_state (λ s, mkApiState (api_data s) (api_loading s) VNull);;
        result ← on_page apiCall;
        set_state (λ s, mkApiState result (api_loading s) (api_error s)))
       (λ err,
          set_state (λ s, mkApiState (api_data s) (api_loading s)
                                     (VStr (err_message err)))))
    (set_state (λ s, mkApiState (api_data s) false (api_error s))).

(** [useProducts]: [products], [categories], [loading], [error]. *)
Record products_state := mkProductsState {
  products : value;                     (* [useState([])] *)
  categories : value;                   (* [useState([])] *)
  products_loading : bool;              (* [useState(true)] *)
  products_error : value;               (* [useState(null)] *)
}.

Section DataHooks.

Variable imported : data_object.

(** [const fetchProducts = async () => ...] of [useProducts(filters)] *)
Definition useProducts_fetchProducts (filters : value)
  : M (page * products_state) unit :=
  try_finally
    (try_catch
       (set_state (λ s, mkProductsState (products s) (categories s) true
                                        (products_error s));;
        data ← on_page (call_getProducts imported filters);
        set_state (λ s, mkProductsState data (categories s) (products_loading s)
                                        (products_error s)))
       (λ err,
          set_state (λ s, mkProductsState (products s) (categories s)
                                          (products_loading s)
                                          (VStr (err_message err)))))
    (set_state (λ s, mkProductsState (products s) (categories s) false
                                     (products_error s))).

(** [const fetchCategories = async () => ...] of [useProducts(filters)] *)
Definition useProducts_fetchCategories : M (page * products_state) unit :=
  try_catch
    (data ← on_page (call_getCategories imported);
     set_state (λ s, mkProductsState (products s) data (products_loading s)
                                     (products_error s)))
    (λ err,
       on_page (in_browser (console_error "Failed to fetch categories:" err))).

End DataHooks.

(** [useOrders]: [orders], [loading], [error]. *)
Record orders_state := mkOrdersState {
  orders : value;                       (* [useState([])] *)
  orders_loading : bool;                (* [useState(true)] *)
  orders_error : value;                 (* [useState(null)] *)
}.

Section OrdersHook.

Variable imported : data_object.

(** [const fetchOrders = async () => ...] of [useOrders(userId)] *)
Definition useOrders_fetchOrders (userId : value) : M (page * orders_state) unit :=
  try_finally
    (try_catch
       (set_state (λ s, mkOrdersState (orders s) true (orders_error s));;
        data ← on_page (call_getUserOrders imported userId);
        set_state (λ s, mkOrdersState data (orders_loading s) (orders_error s)))
       (λ err,
          set_state (λ s, mkOrdersState (orders s) (orders_loading s)
                                        (VStr (err_message err)))))
    (set_state (λ s, mkOrdersState (orders s) false (orders_error s))).

(** The effect of [useOrders(userId)]: [if (userId) fetchOrders()].  The
    call is not awaited; a rejection would be left unhandled. *)
Definition useOrders_effect (userId : value) : M (page * orders_state) unit :=
  if js_truthy userId
  then λ ps, match useOrders_fetchOrders userId ps with
             | (Return _, ps') => (Return tt, ps')
             | (Throw e, ps') => (Return tt, (log_unhandled e ps'.1, ps'.2))
             end
  else mret tt.

End OrdersHook.

(** *** components/loginForm: [handleSubmit] *)

(** The state [handleSubmit] reads and writes: the form's own, and the
    [user] and [currentView] of the application context. *)
Record form_state := mkFormState {
  isLogin : bool;                       (* [useState(true)] *)
  formData : value;                     (* the object of the four inputs *)
  formError : value;                    (* [useState('')] *)
  app_user : value;                     (* [user] of [useApp()] *)
  currentView : value;                  (* [currentView] of [useApp()] *)
}.

Definition setFormError (v : value) : M (page * form_state) unit :=
  set_state (λ s, mkFormState (isLogin s) (formData s) v (app_user s) (currentView s)).
Definition setAppUser (v : value) : M (page * form_state) unit :=
  set_state (λ s, mkFormState (isLogin s) (formData s) (formError s) v (currentView s)).
Definition setCurrentView (v : value) : M (page * form_state) unit :=
  set_state (λ s, mkFormState (isLogin s) (formData s) (formError s) (app_user s) v).

Section LoginFormComponent.

Variable imported : client_object.

(** [const handleSubmit = async (e) => ...] *)
Definition handleSubmit : M (page * form_state) unit :=
  setFormError (VStr "");;
  try_catch
    (form ← gets snd;
     (if isLogin form
      then username ← eval (get_prop (formData form) "username");
           password ← eval (get_prop (formData form) "password");
           on_page (useAuth_login imported username password)
      else on_page (useAuth_register imported (formData form)));;
     userData ← on_page (call_getCurrentUser imported);
     setAppUser userData;;
     setCurrentView (VStr "home"))
    (λ err, setFormError (VStr (err_message err))).

End LoginFormComponent.

(** *** App.jsx: the views *)

Inductive component : Type :=
| LoginForm
| Cart
| Orders
| Profile
| ProductList.

(** [v === 'text'] *)
Definition is_text (v : value) (text : string) : bool :=
  match v with
  | VStr s => String.eqb s text
  | _ => false
  end.

(** [const renderView = () => ...], as a function of the two state
    variables it reads. *)
Definition renderView (user currentView : value) : component :=
  if negb (js_truthy user)
     && (is_text currentView "profile" || is_text currentView "orders")
  then LoginForm
  else if is_text currentView "login" then LoginForm
  else if is_text currentView "cart" then Cart
  else if is_text currentView "orders" then Orders
  else if is_text currentView "profile" then Profile
  else ProductList.

(** *** App.jsx: the cart *)

(** The [id] of a product: a primitive value other than [NaN], so that
    [===] on two of them is equality. *)
Context {ident : Type} `{EqDecision ident}.

(** The properties of a product other than [id] and [quantity]. *)
Context {fields : Type}.

(** The number [1], [q + 1] and [q === 0] on numbers. *)
Variable num_one : num.
Variable plus_one : num → num.
Variable is_zero : num → bool.

Record product := mkProduct {
  product_id : ident;
  product_fields : fields;
}.

(** A line of the cart: [{ ...product, quantity }]. *)
Record cart_item := mkItem {
  item_id : ident;
  quantity : num;
  item_fields : fields;
}.

(** [{ ...item, quantity: q }] *)
Definition with_quantity (q : num) (item : cart_item) : cart_item :=
  mkItem (item_id item) q (item_fields item).

(** The updater of [addToCart(product)], from the previous cart to the
    next. *)
Definition App_addToCart (p : product) (prev : list cart_item) : list cart_item :=
  match find (λ item, bool_decide (item_id item = product_id p)) prev with
  | Some existing =>
      map (λ item, if bool_decide (item_id item = product_id p)
                   then with_quantity (plus_one (quantity item)) item
                   else item) prev
  | None => prev ++ [mkItem (product_id p) num_one (product_fields p)]
  end.

(** The updater of [removeFromCart(id)]. *)
Definition App_removeFromCart (id : ident) (prev : list cart_item) : list cart_item :=
  filter (λ item, item_id item ≠ id) prev.

(** The updater of [updateCartItem(id, quantity)]. *)
Definition App_updateCartItem (id : ident) (q : num) (prev : list cart_item)
  : list cart_item :=
  if is_zero q
  then filter (λ item, item_id item ≠ id) prev
  else map (λ item, if bool_decide (item_id item = id)
                    then with_quantity q item
                    else item) prev.

(** ** Vocabulary of the statements *)

(** The call that led from [w] to [w'] handed one request to [fetch], and
    the network answered it with the response [r]. *)
Definition answered_by (w w' : world) (r : response) : Prop :=
  ∃ req, sent w' = (sent w ++ [req])%list ∧ network (sent w') = FetchResolve r.

(** The same, when [fetch] rejected with [err]: a network-level failure. *)
Definition rejected_with (w w' : world) (err : js_error) : Prop :=
  ∃ req, sent w' = (sent w ++ [req])%list ∧ network (sent w') = FetchReject err.

(** The content type of a response is a JSON one: it is present and
    contains [application/json]. *)
Definition is_json_type (contentType : option string) : bool :=
  match contentType with
  | Some ct => includes "application/json" ct
  | None => false
  end.

(** The [Authorization] header the caller put in the options bag, if any. *)
Definition caller_Authorization (opts : options) : option string :=
  h ← opt_headers opts; h !! "Authorization".

(** The next call of a method of the client, made from [w], carries the
    [Authorization] header [auth] ([None]: no such header), unless the
    method fails on its own arguments before it reaches the network. *)
Definition next_call_carries (w : world) (auth : option string) : Prop :=
  ∀ c, (∃ err, perform c w = (Throw err, w))
       ∨ (∃ req, sent (perform c w).2 = (sent w ++ [req])%list
                 ∧ req_headers req !! "Authorization" = auth).

(** The base addresses of [API_CONFIG]. *)
Definition services : list string :=
  [USER_SERVICE; PRODUCT_SERVICE; ORDER_SERVICE; PAYMENT_SERVICE; CART_SERVICE;
   INVENTORY_SERVICE; NOTIFICATION_SERVICE].

Definition is_login (c : api_call) : bool :=
  match c with
  | Login _ _ => true
  | _ => false
  end.

(** The credential in memory is the one a client constructed anew over the
    same storage would hold: a reload of the page changes nothing. *)
Definition in_sync (w : world) : Prop :=
  token w = token (new_ApiClient (localStorage w)).

(** Every token the network hands out is a string. *)
Definition string_tokens : Prop :=
  ∀ log r data tok,
    network log = FetchResolve r → json r = inr data →
    get_prop data "access_token" = inr tok → js_truthy tok = true →
    ∃ t, tok = VStr t.

(** The call that led from [p] to [p'] left the state of [useAuth] alone. *)
Definition hook_frame (p p' : page) : Prop :=
  user p' = user p ∧ loading p' = loading p ∧ error p' = error p
  ∧ unhandled p' = unhandled p.

(** An object whose members, whatever else they do, leave the state of the
    hook alone: they are no part of the component. *)
Definition client_like (o : client_object) : Prop :=
  (∀ v p, hook_frame p (assign_token o v p).2)
  ∧ (∀ p, hook_frame p (call_getCurrentUser o p).2)
  ∧ (∀ u pw p, hook_frame p (call_login o u pw p).2)
  ∧ (∀ d p, hook_frame p (call_register o d p).2)
  ∧ (∀ p, hook_frame p (call_logout o p).2).

(** The call [handleSubmit] makes first: the hook's [login] on the two
    fields of the form in sign-in mode, its [register] on the whole data in
    sign-up mode. *)
Definition submitted_call (imported : client_object) (s : form_state)
  : M page value :=
  if isLogin s
  then username ← eval (get_prop (formData s) "username");
       password ← eval (get_prop (formData s) "password");
       useAuth_login imported username password
  else useAuth_register imported (formData s).

(** ** Properties *)

(** *** Strings *)

Lemma prefix_app (p s : string) : String.prefix p (p ++ s) = true.
Proof.
  induction p as [|c p IH]; [by destruct s|].
  change (String c p ++ s) with (String c (p ++ s)). simpl.
  by destruct (Ascii.ascii_dec c c).
Qed.

Lemma includes_prefix (p s : string) : String.prefix p s = true → includes p s = true.
Proof. intros H. destruct s; cbn [includes]; rewrite H; done. Qed.

Lemma includes_app (p a b : string) : includes p (a ++ p ++ b) = true.
Proof.
  induction a as [|c a IH].
  - apply (includes_prefix p (p ++ b)), prefix_app.
  - change (String c a ++ p ++ b) with (String c (a ++ p ++ b)).
    cbn [includes]. rewrite IH. apply orb_true_r.
Qed.

Lemma append_empty_r (s : string) : s ++ "" = s.
Proof.
  induction s as [|c s IH]; [done|].
  change (String c s ++ "") with (String c (s ++ "")). congruence.
Qed.

Lemma append_assoc (a b c : string) : (a ++ b) ++ c = a ++ b ++ c.
Proof.
  induction a as [|x a IH]; [done|].
  change ((String x a ++ b) ++ c) with (String x ((a ++ b) ++ c)).
  change (String x a ++ b ++ c) with (String x (a ++ b ++ c)). congruence.
Qed.

Lemma includes_tail (p a : string) : includes p (a ++ p) = true.
Proof. rewrite <- (append_empty_r p) at 2. apply includes_app. Qed.

Lemma not_json_is_json ct : not_json ct = negb (is_json_type ct).
Proof.
  destruct ct as [ct|]; simpl; [|done].
  destruct (String.eqb_spec ct "") as [->|]; done.
Qed.

(** *** The generic request operation *)

(** Unfolds the operations of the monad, as often as they show up. *)
Ltac unfold_monad :=
  repeat (progress (unfold mbind, M_bind, mret, M_ret, gets, modify, throw,
                      try_catch, try_finally, eval, lift in *; simpl in *)).

(** What one call of [request] does, step by step. *)
Lemma request_unfold serviceUrl endpoint opts w :
  request serviceUrl endpoint opts w =
  match attach_credential (token w) (build_config (serviceUrl ++ endpoint) opts) with
  | inl err => (Throw err, w)
  | inr config =>
      let w1 := log_sent config w in
      let failed err := (Throw err, log_console "API request failed:" err w1) in
      match network (sent w1) with
      | FetchReject err => failed err
      | FetchResolve r =>
          match read_response r with
          | inl err => failed err
          | inr data => (Return data, w1)
          end
      end
  end.
Proof.
  unfold request, fetch, console_error. unfold_monad.
  destruct (attach_credential _ _) as [err|config]; unfold_monad; [done|].
  destruct (network _) as [err|r]; unfold_monad; [done|].
  destruct (read_response r); unfold_monad; done.
Qed.

(** [request] never writes the credential, in memory or in storage. *)
Lemma request_frame serviceUrl endpoint opts w out w' :
  request serviceUrl endpoint opts w = (out, w') →
  token w' = token w ∧ localStorage w' = localStorage w.
Proof.
  rewrite request_unfold. intros H.
  repeat (case_match; simplify_eq/=); done.
Qed.

(** Inversion of a call of [request]: either the credential could not be
    turned into text and nothing was sent, or exactly one request was sent
    and the outcome is read off the network's answer. *)
Lemma request_inv serviceUrl endpoint opts w out w' :
  request serviceUrl endpoint opts w = (out, w') →
  let config0 := build_config (serviceUrl ++ endpoint) opts in
  (∃ err, attach_credential (token w) config0 = inl err ∧ out = Throw err ∧ w' = w)
  ∨ (∃ config, attach_credential (token w) config0 = inr config
       ∧ sent w' = (sent w ++ [config])%list
       ∧ token w' = token w ∧ localStorage w' = localStorage w
       ∧ match network (sent w') with
         | FetchReject err => out = Throw err
         | FetchResolve r =>
             out = match read_response r with
                   | inl err => Throw err
                   | inr data => Return data
                   end
         end).
Proof.
  rewrite request_unfold. intros H config0.
  destruct (attach_credential _ _) as [err|config]; [left; exists err; by simplify_eq|].
  right. exists config. split; [done|]. simpl in H.
  destruct (network (sent w ++ [config])) as [err|r] eqn:Hnet.
  - simplify_eq/=. by rewrite Hnet.
  - destruct (read_response r) eqn:Hr; simplify_eq/=; by rewrite Hnet, Hr.
Qed.

Lemma app_singleton_neq {A} (l : list A) (x : A) : l ≠ (l ++ [x])%list.
Proof. intros H%(f_equal length). rewrite length_app in H. simpl in H. lia. Qed.

(** With an answer of the network in hand, the outcome is what
    [read_response] makes of it. *)
Lemma request_answered serviceUrl endpoint opts w out w' r :
  request serviceUrl endpoint opts w = (out, w') →
  answered_by w w' r →
  out = match read_response r with
        | inl err => Throw err
        | inr data => Return data
        end.
Proof.
  intros [(err & _ & _ & ->)|(config & _ & _ & _ & _ & Hout)]%request_inv
         (req & Hsent & Hnet).
  - by apply app_singleton_neq in Hsent.
  - by rewrite Hnet in Hout.
Qed.

Lemma request_rejected serviceUrl endpoint opts w out w' err :
  request serviceUrl endpoint opts w = (out, w') →
  rejected_with w w' err →
  out = Throw err.
Proof.
  intros [(err' & _ & _ & ->)|(config & _ & _ & _ & _ & Hout)]%request_inv
         (req & Hsent & Hnet).
  - by apply app_singleton_neq in Hsent.
  - by rewrite Hnet in Hout.
Qed.

(** A normal return of [request] comes from a JSON answer with a success
    status, and is its parsed body. *)
Lemma request_returns serviceUrl endpoint opts w data w' :
  request serviceUrl endpoint opts w = (Return data, w') →
  ∃ r, answered_by w w' r ∧ read_response r = inr data.
Proof.
  intros [(err & _ & ? & _)|(config & _ & Hsent & _ & _ & Hout)]%request_inv; [done|].
  destruct (network (sent w')) as [err|r] eqn:Hnet; [done|].
  exists r. split; [by exists config|].
  destruct (read_response r); by simplify_eq.
Qed.

(** *** [read_response], case by case *)

Lemma read_response_non_json r :
  is_json_type (content_type r) = false →
  read_response r =
  inl (Error ("Server returned " ++ pretty (status r) ++ ": " ++ statusText r)).
Proof. intros H. unfold read_response. by rewrite not_json_is_json, H. Qed.

Lemma read_response_json r :
  is_json_type (content_type r) = true →
  read_response r =
  ebind (json r) (λ data,
    if ok r then inr data
    else ebind (get_prop data "detail") (λ detail,
         ebind (if js_truthy detail then to_string detail
                else inr ("HTTP error! status: " ++ pretty (status r)))
               (λ message, inl (Error message)))).
Proof.
  intros H. unfold read_response. rewrite not_json_is_json, H. simpl.
  destruct (json r); simpl; [done|]. by destruct (ok r).
Qed.

Lemma read_response_inr r data :
  read_response r = inr data ↔
  is_json_type (content_type r) = true ∧ ok r = true ∧ json r = inr data.
Proof.
  split.
  - destruct (is_json_type (content_type r)) eqn:Hct.
    + rewrite read_response_json by done. intros H.
      destruct (json r) as [|d]; simpl in H; [done|].
      destruct (ok r); simpl in H; [by simplify_eq|].
      destruct (get_prop d "detail") as [|detail]; simpl in H; [done|].
      by destruct (if js_truthy detail then _ else _).
    + by rewrite read_response_non_json.
  - intros (Hct & Hok & Hjson). rewrite read_response_json, Hjson by done.
    simpl. by rewrite Hok.
Qed.

Lemma read_response_not_ok r :
  is_json_type (content_type r) = true → ok r = false →
  ∃ err, read_response r = inl err.
Proof.
  intros Hct Hok. destruct (read_response r) as [err|data] eqn:H; [by exists err|].
  apply read_response_inr in H as (_ & ? & _). congruence.
Qed.

Lemma read_response_detail r data detail :
  is_json_type (content_type r) = true → ok r = false →
  json r = inr data → get_prop data "detail" = inr detail →
  read_response r =
  if js_truthy detail
  then match to_string detail with
       | inl err => inl err
       | inr message => inl (Error message)
       end
  else inl (Error ("HTTP error! status: " ++ pretty (status r))).
Proof.
  intros Hct Hok Hjson Hdetail.
  rewrite read_response_json, Hjson by done. simpl. rewrite Hok, Hdetail. simpl.
  destruct (js_truthy detail); [|done]. by destruct (to_string detail).
Qed.

(** *** The methods built on [request] *)

(** What one call of [login] does after its request. *)
Lemma login_unfold username password w :
  login username password w =
  match request USER_SERVICE AUTH_LOGIN
          (with_body "POST" (VObj [("username", username); ("password", password)])) w
  with
  | (Throw err, w1) => (Throw err, w1)
  | (Return response, w1) =>
      match get_prop response "access_token" with
      | inl err => (Throw err, w1)
      | inr access_token =>
          if js_truthy access_token
          then match to_string access_token with
               | inl err => (Throw err, set_token access_token w1)
               | inr text =>
                   (Return response,
                    set_localStorage (insert "token" text) (set_token access_token w1))
               end
          else (Return response, w1)
      end
  end.
Proof.
  unfold login, setItem. unfold_monad.
  destruct (request _ _ _ w) as [[response|err] w1]; [|done].
  destruct (get_prop response "access_token") as [err|access_token]; unfold_monad; [done|].
  destruct (js_truthy access_token); unfold_monad; [|done].
  destruct (to_string access_token); unfold_monad; done.
Qed.

(** [login] sends what its call of [request] sends, and nothing more. *)
Lemma login_sent username password w :
  sent (login username password w).2 =
  sent (request USER_SERVICE AUTH_LOGIN
          (with_body "POST" (VObj [("username", username); ("password", password)])) w).2.
Proof.
  rewrite login_unfold.
  destruct (request _ _ _ w) as [[response|err] w1]; [|done].
  repeat (case_match; simplify_eq/=); done.
Qed.

(** [register] is its call of [request]. *)
Lemma register_unfold userData w :
  register userData w =
  request USER_SERVICE AUTH_REGISTER (with_body "POST" userData) w.
Proof.
  unfold register. unfold_monad.
  by destruct (request _ _ _ w) as [[response|err] w1].
Qed.

(** Every method either fails while it builds its arguments, before
    anything is sent and with the world untouched, or sends what one call
    of [request] sends, with an options bag that has no [headers] key. *)
Lemma perform_request c w :
  (∃ err, perform c w = (Throw err, w))
  ∨ (∃ serviceUrl endpoint opts,
       opt_headers opts = None
       ∧ sent (perform c w).2 = sent (request serviceUrl endpoint opts w).2).
Proof.
  destruct c; simpl; rewrite ?register_unfold;
    try (right; do 3 eexists; split; [|first [apply login_sent|reflexivity]]; done).
  all: unfold getUserProfile, updateUserProfile, getProducts, getProduct, getOrder,
         getUserOrders, updateOrderStatus, getPayment, getPaymentMethods,
         updateCartItem, removeFromCart, getInventory, updateInventory,
         getUserNotifications; unfold_monad.
  all: match goal with
       | |- context [match ?x with inl _ => _ | inr _ => _ end] =>
           destruct x as [err|text]; unfold_monad;
           [left; by exists err|right; do 3 eexists; split; [|reflexivity]; done]
       end.
Qed.

(** *** The credential on the outgoing request *)

Lemma request_sends_bearer serviceUrl endpoint opts w t :
  token w = VStr t → t ≠ "" →
  ∃ req, sent (request serviceUrl endpoint opts w).2 = (sent w ++ [req])%list
         ∧ req_headers req !! "Authorization" = Some ("Bearer " ++ t).
Proof.
  intros Ht Hne.
  destruct (request serviceUrl endpoint opts w) as [out w'] eqn:Hrun.
  apply request_inv in Hrun as [(err & Hatt & _)|(config & Hatt & Hsent & _)];
    unfold attach_credential, template in Hatt; rewrite Ht in Hatt; simpl in Hatt;
    destruct (String.eqb_spec t "") as [|_]; try done; simplify_eq/=.
  eexists. split; [done|]. simpl. rewrite lookup_insert_eq.
  by rewrite append_empty_r.
Qed.

Lemma request_sends_plain serviceUrl endpoint opts w :
  js_truthy (token w) = false →
  ∃ req, sent (request serviceUrl endpoint opts w).2 = (sent w ++ [req])%list
         ∧ req_headers req = default {[ "Content-Type" := "application/json" ]}
                                     (opt_headers opts).
Proof.
  intros Hfalsy.
  destruct (request serviceUrl endpoint opts w) as [out w'] eqn:Hrun.
  apply request_inv in Hrun as [(err & Hatt & _)|(config & Hatt & Hsent & _)];
    unfold attach_credential in Hatt; rewrite Hfalsy in Hatt; simplify_eq/=.
  eexists. split; [done|]. unfold build_config. simpl.
  destruct (opt_headers opts) as [h|]; simpl; [done|].
  by rewrite (left_id ∅ (∪)).
Qed.

Lemma plain_Authorization opts :
  default ({[ "Content-Type" := "application/json" ]} : headers) (opt_headers opts)
    !! "Authorization" = caller_Authorization opts.
Proof.
  unfold caller_Authorization. destruct (opt_headers opts) as [h|]; simpl; [done|].
  by rewrite lookup_singleton_ne.
Qed.

(** The header of the next call, with a string credential and with none. *)
Lemma next_call_bearer w t :
  token w = VStr t → t ≠ "" → next_call_carries w (Some ("Bearer " ++ t)).
Proof.
  intros Ht Hne c.
  destruct (perform_request c w) as [?|(u & e & o & _ & ->)]; [by left|right].
  by apply request_sends_bearer.
Qed.

Lemma next_call_plain w :
  js_truthy (token w) = false → next_call_carries w None.
Proof.
  intros Hfalsy c.
  destruct (perform_request c w) as [?|(u & e & o & Hopts & ->)]; [by left|right].
  destruct (request_sends_plain u e o w Hfalsy) as (req & Hsent & Hreq).
  exists req. split; [done|]. by rewrite Hreq, Hopts.
Qed.

(** *** Claims about [request] *)

(** C4.  Whenever the network answers a call of [request] with a response
    whose content type is absent or is not a JSON one, the call throws an
    [Error] whose message is ["Server returned <status>: <statusText>"] and
    so includes both the HTTP status and the status text.  The body and
    the status of the response are arbitrary. *)
Theorem request_non_json_raises serviceUrl endpoint opts w out w' r :
  request serviceUrl endpoint opts w = (out, w') →
  answered_by w w' r →
  is_json_type (content_type r) = false →
  let message := "Server returned " ++ pretty (status r) ++ ": " ++ statusText r in
  out = Throw (Error message)
  ∧ includes (pretty (status r)) message = true
  ∧ includes (statusText r) message = true.
Proof.
  intros Hrun Hans Hct message.
  rewrite (request_answered _ _ _ _ _ _ _ Hrun Hans), read_response_non_json by done.
  split; [done|]. split.
  - apply includes_app.
  - unfold message.
    rewrite <- (append_assoc _ ": "), <- append_assoc. apply includes_tail.
Qed.

(** C1, as amended.  For every call of [request]:
    - it returns normally exactly when the network answered with a JSON
      content type and a success status and the body parsed, and it then
      returns the parsed body;
    - a network-level failure is thrown on as it is;
    - an answer without a JSON content type is thrown as an [Error];
    - an answer with a JSON content type and a non-success status always
      throws; when the parsed body is not [null], the message is the text
      of its [detail] field if that field is truthy (for a non-empty string:
      the string itself), and ["HTTP error! status: <status>"] if the field
      is absent or falsy. *)
Theorem request_outcome serviceUrl endpoint opts w out w' :
  request serviceUrl endpoint opts w = (out, w') →
  (∀ data, out = Return data ↔
     ∃ r, answered_by w w' r ∧ is_json_type (content_type r) = true
          ∧ ok r = true ∧ json r = inr data)
  ∧ (∀ err, rejected_with w w' err → out = Throw err)
  ∧ (∀ r, answered_by w w' r → is_json_type (content_type r) = false →
       ∃ message, out = Throw (Error message))
  ∧ (∀ r, answered_by w w' r → is_json_type (content_type r) = true →
       ok r = false →
       (∃ err, out = Throw err)
       ∧ ∀ data detail,
           json r = inr data → get_prop data "detail" = inr detail →
           (∀ s, detail = VStr s → s ≠ "" → out = Throw (Error s))
           ∧ (js_truthy detail = true → ∀ message,
                to_string detail = inr message → out = Throw (Error message))
           ∧ (js_truthy detail = false →
                out = Throw (Error ("HTTP error! status: " ++ pretty (status r))))).
Proof.
  intros Hrun. split; [|split; [|split]].
  - intros data. split.
    + intros ->. apply request_returns in Hrun as (r & Hans & Hr).
      exists r. by apply read_response_inr in Hr as (? & ? & ?).
    + intros (r & Hans & Hct & Hok & Hjson).
      rewrite (request_answered _ _ _ _ _ _ _ Hrun Hans).
      by rewrite (proj2 (read_response_inr r data)).
  - intros err Hrej. by eapply request_rejected.
  - intros r Hans Hct. eexists.
    by rewrite (request_answered _ _ _ _ _ _ _ Hrun Hans), read_response_non_json.
  - intros r Hans Hct Hok.
    pose proof (request_answered _ _ _ _ _ _ _ Hrun Hans) as ->. split.
    + destruct (read_response_not_ok r Hct Hok) as [err ->]. by exists err.
    + intros data detail Hjson Hdetail.
      rewrite (read_response_detail r data detail) by done.
      split; [|split].
      * intros s -> Hs. simpl. by destruct (String.eqb_spec s "").
      * intros -> message ->. done.
      * intros ->. done.
Qed.

(** C2, as amended.  For every call of [request]:
    - if the client holds a non-empty credential [t], one request is sent
      and it carries [Authorization: Bearer t], whatever the caller's
      options say;
    - if the client holds no credential, or an empty or otherwise falsy
      one, one request is sent and the client adds no [Authorization]
      header to it: the request carries the one of the caller's own
      headers, and none if the caller gave none;
    - in general, a request sent while a truthy credential is held carries
      [Bearer] followed by the text of the credential;
    - in particular a client constructed over a storage that holds a
      non-empty credential sends it as a bearer header on its first call. *)
Theorem request_authorization serviceUrl endpoint opts w out w' :
  request serviceUrl endpoint opts w = (out, w') →
  (∀ t, token w = VStr t → t ≠ "" →
     ∃ req, sent w' = (sent w ++ [req])%list
            ∧ req_headers req !! "Authorization" = Some ("Bearer " ++ t))
  ∧ (js_truthy (token w) = false →
     ∃ req, sent w' = (sent w ++ [req])%list
            ∧ req_headers req !! "Authorization" = caller_Authorization opts)
  ∧ (∀ req, sent w' = (sent w ++ [req])%list → js_truthy (token w) = true →
     ∃ bearer, to_string (token w) = inr bearer
               ∧ req_headers req !! "Authorization" = Some ("Bearer " ++ bearer))
  ∧ (∀ storage t, w = new_ApiClient storage → storage !! "token" = Some t →
     t ≠ "" →
     ∃ req, sent w' = [req]
            ∧ req_headers req !! "Authorization" = Some ("Bearer " ++ t)).
Proof.
  intros Hrun.
  assert (w' = (request serviceUrl endpoint opts w).2) as Hw' by (by rewrite Hrun).
  split; [|split; [|split]].
  - intros t Ht Hne. rewrite Hw'. by apply request_sends_bearer.
  - intros Hfalsy. rewrite Hw'.
    destruct (request_sends_plain serviceUrl endpoint opts w Hfalsy)
      as (req & Hsent & Hreq).
    exists req. split; [done|]. rewrite Hreq. apply plain_Authorization.
  - intros req Hsent Htruthy.
    apply request_inv in Hrun as [(err & _ & _ & ->)|(config & Hatt & Hsent' & _)].
    { by apply app_singleton_neq in Hsent. }
    rewrite Hsent' in Hsent. apply app_inj_tail in Hsent as [_ ->].
    unfold attach_credential, template in Hatt. rewrite Htruthy in Hatt.
    destruct (to_string (token w)) as [|bearer]; simplify_eq/=.
    exists bearer. split; [done|]. rewrite lookup_insert_eq.
    by rewrite append_empty_r.
  - intros storage t -> Hstored Hne. rewrite Hw'.
    apply (request_sends_bearer serviceUrl endpoint opts (new_ApiClient storage) t);
      [|done].
    simpl. by rewrite Hstored.
Qed.

(** *** Claims about [login], [register] and [logout] *)

(** C3.  Whenever a call of [login] is answered with a success status, a
    JSON content type and a body whose [access_token] is a non-empty string
    [t], the call returns that body, the client's credential is [t] in
    memory and under the key [token] of the persistent storage, and the
    next call, of [request] or of any method, carries
    [Authorization: Bearer t]. *)
Theorem login_stores_token username password w out w' r data t :
  login username password w = (out, w') →
  answered_by w w' r →
  is_json_type (content_type r) = true → ok r = true → json r = inr data →
  get_prop data "access_token" = inr (VStr t) → t ≠ "" →
  out = Return data
  ∧ token w' = VStr t
  ∧ localStorage w' = <[ "token" := t ]> (localStorage w)
  ∧ (∀ serviceUrl endpoint opts,
       ∃ req, sent (request serviceUrl endpoint opts w').2 = (sent w' ++ [req])%list
              ∧ req_headers req !! "Authorization" = Some ("Bearer " ++ t))
  ∧ next_call_carries w' (Some ("Bearer " ++ t)).
Proof.
  intros Hrun Hans Hct Hok Hjson Htok Hne.
  assert (token w' = VStr t ∧ out = Return data
          ∧ localStorage w' = <[ "token" := t ]> (localStorage w)) as (Hmem & -> & Hsto).
  { rewrite login_unfold in Hrun.
    destruct (request _ _ _ w) as [out1 w1] eqn:Hreq.
    assert (answered_by w w1 r) as Hans1.
    { destruct Hans as (req & Hsent & Hnet). exists req.
      assert (sent w' = sent w1) as <-; [|done].
      repeat (case_match; simplify_eq/=); done. }
    pose proof (request_answered _ _ _ _ _ _ _ Hreq Hans1) as ->.
    apply request_frame in Hreq as [Hm Hs].
    rewrite (proj2 (read_response_inr r data)), Htok in Hrun by done.
    simpl in Hrun. destruct (String.eqb_spec t "") as [|_]; [done|].
    simplify_eq/=. by rewrite Hs. }
  split; [done|]. split; [done|]. split; [done|]. split.
  - intros. by apply request_sends_bearer.
  - by apply next_call_bearer.
Qed.

(** C9, as amended.  Whenever a call of [login] is answered with a success
    status, a JSON content type and a body other than [null] whose
    [access_token] is absent or falsy, the call throws nothing, returns the
    body, and leaves the credential as it was, in memory and in storage. *)
Theorem login_without_token username password w out w' r data access_token :
  login username password w = (out, w') →
  answered_by w w' r →
  is_json_type (content_type r) = true → ok r = true → json r = inr data →
  get_prop data "access_token" = inr access_token →
  js_truthy access_token = false →
  out = Return data ∧ token w' = token w ∧ localStorage w' = localStorage w.
Proof.
  intros Hrun Hans Hct Hok Hjson Htok Hfalsy.
  rewrite login_unfold in Hrun.
  destruct (request _ _ _ w) as [out1 w1] eqn:Hreq.
  assert (answered_by w w1 r) as Hans1.
  { destruct Hans as (req & Hsent & Hnet). exists req.
    assert (sent w' = sent w1) as <-; [|done].
    repeat (case_match; simplify_eq/=); done. }
  pose proof (request_answered _ _ _ _ _ _ _ Hreq Hans1) as ->.
  apply request_frame in Hreq as [Hm Hs].
  rewrite (proj2 (read_response_inr r data)), Htok, Hfalsy in Hrun by done.
  by simplify_eq.
Qed.

(** C7.  Every call of [register] leaves the credential as it was, in
    memory and in storage, whether it returns or throws; and it returns
    exactly when its request is answered with a JSON content type and a
    success status, the value returned being the parsed body itself. *)
Theorem register_no_session userData w out w' :
  register userData w = (out, w') →
  token w' = token w
  ∧ localStorage w' = localStorage w
  ∧ (∀ data, out = Return data ↔
       ∃ r, answered_by w w' r ∧ is_json_type (content_type r) = true
            ∧ ok r = true ∧ json r = inr data).
Proof.
  rewrite register_unfold. intros Hrun.
  destruct (request_frame _ _ _ _ _ _ Hrun) as [Hm Hs].
  split; [done|]. split; [done|]. intros data. split.
  - intros ->. apply request_returns in Hrun as (r & Hans & Hr).
    exists r. by apply read_response_inr in Hr as (? & ? & ?).
  - intros (r & Hans & Hct & Hok & Hjson).
    rewrite (request_answered _ _ _ _ _ _ _ Hrun Hans).
    by rewrite (proj2 (read_response_inr r data)).
Qed.

(** C6.  Every call of [logout] returns without throwing, sets the
    credential in memory to [null], removes the key [token] from the
    persistent storage and leaves every other key alone, sends nothing and
    logs nothing; afterwards the next call of any method carries no
    [Authorization] header, and a call of [request] carries none but the
    caller's own. *)
Theorem logout_clears w :
  ∃ w', logout w = (Return tt, w')
        ∧ token w' = VNull
        ∧ localStorage w' = delete "token" (localStorage w)
        ∧ sent w' = sent w
        ∧ console w' = console w
        ∧ next_call_carries w' None
        ∧ (∀ serviceUrl endpoint opts,
             ∃ req, sent (request serviceUrl endpoint opts w').2 = (sent w' ++ [req])%list
                    ∧ req_headers req !! "Authorization" = caller_Authorization opts).
Proof.
  eexists. split; [reflexivity|]. simpl. do 4 (split; [done|]). split.
  - by apply next_call_plain.
  - intros u e o.
    destruct (request_sends_plain u e o
                (set_localStorage (delete "token") (set_token VNull w)) eq_refl)
      as (req & Hsent & Hreq).
    exists req. split; [done|]. rewrite Hreq. apply plain_Authorization.
Qed.

(** *** The hook *)

(** Unfolds the hook's own operations along with the monad's. *)
Ltac unfold_hook :=
  repeat (progress (unfold in_browser, unawaited, setUser, setLoading, setError,
                      not_a_function, console_error, getItem in *;
                    unfold_monad)).

(** The hook as the program has it: [apiClient] is the class object, none
    of the calls it makes on it is a function, and the restoration of a
    session ends in an unhandled rejection with the credential still in
    storage and no request sent. *)
Lemma useAuth_effect_on_class p t :
  localStorage (browser p) !! "token" = Some t → t ≠ "" →
  ∃ p', useAuth_effect apiClient p = (Return tt, p')
        ∧ token (browser p') = token (browser p)
        ∧ localStorage (browser p') = localStorage (browser p)
        ∧ sent (browser p') = sent (browser p)
        ∧ statics p' = <[ "token" := VStr t ]> (statics p)
        ∧ user p' = user p ∧ error p' = error p ∧ loading p' = false
        ∧ unhandled p' =
          (unhandled p ++ [TypeError "apiClient.logout is not a function"])%list.
Proof.
  intros Hstored Hne.
  unfold useAuth_effect, useAuth_getCurrentUser. unfold_hook. rewrite Hstored. simpl.
  destruct (String.eqb_spec t "") as [|_]; [done|]. unfold_hook.
  eexists. split; [reflexivity|]. done.
Qed.

(** On the class object [register] is not a function either: the hook's
    [register] throws before anything is sent, whatever the network would
    have answered, and only records the message. *)
Lemma useAuth_register_on_class userData p :
  let err := TypeError "apiClient.register is not a function" in
  ∃ p', useAuth_register apiClient userData p = (Throw err, p')
        ∧ browser p' = browser p
        ∧ user p' = user p
        ∧ error p' = VStr (err_message err).
Proof.
  unfold useAuth_register. unfold_hook.
  eexists. split; [reflexivity|]. done.
Qed.

(** X1.  The same hook over an instance of the client.  If the lookup of the
    current user fails while a stored session is restored, the hook logs
    out: the credential is gone from memory and from storage, nothing is
    thrown or left unhandled, and the hook's [user] and [error] are as they
    were. *)
Lemma useAuth_effect_on_instance p t err w1 :
  localStorage (browser p) !! "token" = Some t → t ≠ "" →
  getCurrentUser (set_token (VStr t) (browser p)) = (Throw err, w1) →
  ∃ p', useAuth_effect ApiClient_instance p = (Return tt, p')
        ∧ token (browser p') = VNull
        ∧ localStorage (browser p') = delete "token" (localStorage (browser p))
        ∧ user p' = user p ∧ error p' = error p ∧ loading p' = false
        ∧ unhandled p' = unhandled p.
Proof.
  intros Hstored Hne Hfail.
  pose proof Hfail as [_ Hs]%request_frame. simpl in Hs.
  unfold useAuth_effect, useAuth_getCurrentUser. unfold_hook. rewrite Hstored. simpl.
  destruct (String.eqb_spec t "") as [|_]; [done|]. unfold_hook.
  rewrite Hfail. unfold logout, removeItem. unfold_hook.
  eexists. split; [reflexivity|]. simpl. by rewrite Hs.
Qed.

(** X2.  Over an instance, a registration that succeeds is followed at once by
    the hook's [login] with the [username] and [password] of the data: the
    call returns the registration's response if that login returns, and
    throws the login's error, recording its message, if it throws. *)
Lemma useAuth_register_on_instance userData username password p response w1 :
  register userData (browser p) = (Return response, w1) →
  get_prop userData "username" = inr username →
  get_prop userData "password" = inr password →
  let p1 := mkPage w1 (statics p) (user p) (loading p) VNull (unhandled p) in
  useAuth_register ApiClient_instance userData p =
  match useAuth_login ApiClient_instance username password p1 with
  | (Return _, p2) => (Return response, p2)
  | (Throw err, p2) =>
      (Throw err,
       mkPage (browser p2) (statics p2) (user p2) (loading p2)
              (VStr (err_message err)) (unhandled p2))
  end.
Proof.
  intros Hreg Hu Hp p1. unfold useAuth_register. unfold_hook.
  rewrite Hreg, Hu, Hp. unfold_hook.
  change (set_browser w1 _) with p1.
  by destruct (useAuth_login _ _ _ p1) as [[?|?] ?].
Qed.

(** Over an instance, the hook's [login] starts with the client's [login]:
    the first thing it sends is the POST of the credentials to the login
    endpoint of the user service. *)
Lemma useAuth_login_on_instance username password p :
  (js_truthy (token (browser p)) = false ∨ ∃ t, token (browser p) = VStr t) →
  ∃ req rest,
    sent (browser (useAuth_login ApiClient_instance username password p).2)
    = (sent (browser p) ++ req :: rest)%list
    ∧ req_url req = USER_SERVICE ++ AUTH_LOGIN
    ∧ req_method req = Some "POST"
    ∧ req_body req =
      JSON_stringify (VObj [("username", username); ("password", password)]).
Proof.
  intros Htok.
  set (opts := with_body "POST" (VObj [("username", username); ("password", password)])).
  assert (∃ req, sent (login username password (browser p)).2
                 = (sent (browser p) ++ [req])%list
                 ∧ req_url req = USER_SERVICE ++ AUTH_LOGIN
                 ∧ req_method req = Some "POST"
                 ∧ req_body req = opt_body opts) as (req & Hsent & Hreq).
  { rewrite login_sent. fold opts.
    destruct (request USER_SERVICE AUTH_LOGIN opts (browser p)) as [out w'] eqn:Hrun.
    apply request_inv in Hrun as [(err & Hatt & _)|(config & Hatt & Hsent & _)];
      unfold attach_credential, template in Hatt;
      destruct Htok as [Hf|[t Ht]];
      [rewrite Hf in Hatt|rewrite Ht in Hatt|rewrite Hf in Hatt|rewrite Ht in Hatt];
      simpl in Hatt; try done; try (by destruct (negb _)).
    - exists config. by simplify_eq/=.
    - exists config. destruct (negb _); by simplify_eq/=. }
  exists req. unfold useAuth_login, useAuth_getCurrentUser. unfold_hook.
  destruct (login username password (browser p)) as [[response|err] w1]; simpl in *.
  - unfold_hook.
    destruct (getCurrentUser w1) as [[userData|err] w2] eqn:Hcur; unfold_hook.
    + apply request_inv in Hcur as [(? & _ & ? & _)|(config & _ & Hs2 & _)]; [done|].
      exists [config]. rewrite Hs2, Hsent, <- app_assoc. done.
    + unfold logout, removeItem. unfold_hook.
      apply request_inv in Hcur as [(? & _ & _ & ->)|(config & _ & Hs2 & _)].
      * exists []. done.
      * exists [config]. rewrite Hs2, Hsent, <- app_assoc. done.
  - exists []. done.
Qed.

(** ** More of the client *)

(** Drops from a proof's context the parts of the environment that its
    statement does not speak of. *)
Ltac forget_env :=
  try clear JSON_stringify; try clear URLSearchParams; try clear env;
  try clear network; try clear num_to_string; try clear num_truthy;
  try clear plus_one; try clear num_one; try clear is_zero.

(** What [request] hands to [fetch]. *)
Lemma request_sends_at_most_once serviceUrl endpoint opts w :
  let w' := (request serviceUrl endpoint opts w).2 in
  (sent w' = sent w
   ∨ ∃ req, sent w' = (sent w ++ [req])%list
            ∧ req_url req = serviceUrl ++ endpoint
            ∧ req_method req = opt_method opts
            ∧ req_body req = opt_body opts)
  ∧ ((js_truthy (token w) = false ∨ ∃ t, token w = VStr t) →
     ∃ req, sent w' = (sent w ++ [req])%list).
Proof using Type.
  intros w'. subst w'.
  destruct (request serviceUrl endpoint opts w) as [out w'] eqn:Hrun. simpl.
  apply request_inv in Hrun as [(err & Hatt & _ & ->)|(config & Hatt & Hsent & _)].
  - split; [by left|]. intros Htok. exfalso.
    unfold attach_credential, template in Hatt.
    destruct Htok as [Hf|[t Ht]]; [by rewrite Hf in Hatt|].
    rewrite Ht in Hatt. simpl in Hatt. by destruct (negb _).
  - split; [|intros _; by exists config].
    right. exists config. split; [done|].
    unfold attach_credential in Hatt.
    destruct (js_truthy (token w)); [|by simplify_eq].
    destruct (template _ _ _); by simplify_eq/=.
Qed.

(** X3.  One call of [request] makes at most one call of [fetch], with the url,
    method and body it was given; it makes exactly one when the credential
    is a string or falsy. *)
Theorem request_sends_once serviceUrl endpoint opts w :
  let w' := (request serviceUrl endpoint opts w).2 in
  (sent w' = sent w
   ∨ ∃ req, sent w' = (sent w ++ [req])%list
            ∧ req_url req = serviceUrl ++ endpoint
            ∧ req_method req = opt_method opts
            ∧ req_body req = opt_body opts)
  ∧ ((js_truthy (token w) = false ∨ ∃ t, token w = VStr t) →
     ∃ req, sent w' = (sent w ++ [req])%list).
Proof using Type. apply request_sends_at_most_once. Qed.

(** X4.  [request] writes to the console exactly when it throws after its
    request went out, and then once, the error it throws; a call that
    returns logs nothing. *)
Theorem request_logs_failure serviceUrl endpoint opts w out w' :
  request serviceUrl endpoint opts w = (out, w') →
  match out with
  | Return _ => console w' = console w
  | Throw err =>
      (sent w' = sent w ∧ console w' = console w)
      ∨ (sent w' ≠ sent w
         ∧ console w' = (console w ++ [("API request failed:", err)])%list)
  end.
Proof using Type.
  rewrite request_unfold. intros Hrun.
  destruct (attach_credential _ _) as [err|config]; [simplify_eq; by left|].
  simpl in Hrun.
  assert (sent w ≠ (sent w ++ [config])%list) as Hne by apply app_singleton_neq.
  destruct (network _) as [err|r]; [simplify_eq/=; by right|].
  destruct (read_response r); simplify_eq/=; [by right|done].
Qed.

(** A method that starts by turning an argument into text. *)
Lemma eval_then_request {A} (x : js_error + A) (k : A → M world value) w :
  (endpoint ← eval x; k endpoint) w =
  match x with
  | inl err => (Throw err, w)
  | inr a => k a w
  end.
Proof using Type. destruct x; by unfold_monad. Qed.

(** The methods that only pass through. *)
Lemma perform_keeps_credential c w :
  is_login c = false →
  token (perform c w).2 = token w ∧ localStorage (perform c w).2 = localStorage w.
Proof using Type.
  intros Hc.
  assert (∀ u e o, token (request u e o w).2 = token w
                   ∧ localStorage (request u e o w).2 = localStorage w) as Hreq.
  { intros u e o. destruct (request u e o w) as [out w'] eqn:Hrun.
    by apply request_frame in Hrun. }
  destruct c; try done; simpl; rewrite ?register_unfold; try apply Hreq.
  all: unfold getUserProfile, updateUserProfile, getProducts, getProduct, getOrder,
         getUserOrders, updateOrderStatus, getPayment, getPaymentMethods,
         updateCartItem, removeFromCart, getInventory, updateInventory,
         getUserNotifications; rewrite eval_then_request.
  all: match goal with
       | |- context [match ?x with inl _ => _ | inr _ => _ end] =>
           destruct x; [done|apply Hreq]
       end.
Qed.

(** X5.  Every method but [login] leaves the credential alone, in memory and in
    storage, whatever the network answers. *)
Theorem perform_frame c w :
  is_login c = false →
  token (perform c w).2 = token w ∧ localStorage (perform c w).2 = localStorage w.
Proof using Type. apply perform_keeps_credential. Qed.

(** X6.  Every method sends its request, if it sends one, to an address that
    starts with one of the seven base addresses of the configuration. *)
Theorem perform_target c w req :
  sent (perform c w).2 = (sent w ++ [req])%list →
  ∃ service, service ∈ services ∧ String.prefix service (req_url req) = true.
Proof using Type.
  assert (∀ u e o, u ∈ services →
            sent (request u e o w).2 = (sent w ++ [req])%list →
            ∃ service, service ∈ services
                       ∧ String.prefix service (req_url req) = true) as Hreq.
  { intros u e o Hu Hsent. exists u. split; [done|].
    destruct (request_sends_at_most_once u e o w) as [[Hnone|(req' & Hs & Hurl & _)] _].
    - rewrite Hnone in Hsent. by apply app_singleton_neq in Hsent.
    - rewrite Hs in Hsent. apply app_inj_tail in Hsent as [_ <-].
      rewrite Hurl. apply prefix_app. }
  assert (∀ err, sent (Throw err : outcome value, w).2 ≠ (sent w ++ [req])%list)
    as Hnone by (intros err; apply app_singleton_neq).
  destruct c; simpl; rewrite ?register_unfold, ?login_sent;
    try (apply Hreq; apply list_elem_of_In; simpl; repeat (first [by left|right])).
  all: unfold getUserProfile, updateUserProfile, getProducts, getProduct, getOrder,
         getUserOrders, updateOrderStatus, getPayment, getPaymentMethods,
         updateCartItem, removeFromCart, getInventory, updateInventory,
         getUserNotifications; rewrite eval_then_request.
  all: match goal with
       | |- context [match ?x with inl _ => _ | inr _ => _ end] =>
           destruct x; [intros ?; by edestruct Hnone
                       |apply Hreq; apply list_elem_of_In; simpl; repeat (first [by left|right])]
       end.
Qed.

(** X7.  A login whose request fails, by a failure of the network, an answer
    that is no JSON or a status that is no success, throws and leaves the
    credential as it was: a session held before survives a failed login. *)
Theorem login_failure_keeps_session username password w out w' :
  login username password w = (out, w') →
  ((∃ err, rejected_with w w' err)
   ∨ ∃ r, answered_by w w' r
          ∧ (is_json_type (content_type r) = false ∨ ok r = false)) →
  (∃ err, out = Throw err) ∧ token w' = token w ∧ localStorage w' = localStorage w.
Proof using Type.
  intros Hrun Hfail. rewrite login_unfold in Hrun.
  destruct (request _ _ _ w) as [out1 w1] eqn:Hreq.
  assert (sent w' = sent w1) as Hsent.
  { repeat (case_match; simplify_eq/=); done. }
  assert (∃ err, out1 = Throw err) as [err ->].
  { destruct Hfail as [[err (req & Hs & Hnet)]|(r & (req & Hs & Hnet) & Hbad)].
    - exists err. eapply request_rejected; [done|]. exists req. by rewrite <- Hsent.
    - assert (answered_by w w1 r) as Hans by (exists req; by rewrite <- Hsent).
      rewrite (request_answered _ _ _ _ _ _ _ Hreq Hans).
      destruct (read_response r) as [e|data] eqn:Hr; [by exists e|].
      apply read_response_inr in Hr as (? & ? & _). destruct Hbad; congruence. }
  simplify_eq. split; [by exists err|]. by apply request_frame in Hreq.
Qed.

(** X8.  The credential in memory and the one in storage stay in step: a new
    client is in step, [logout] leaves the client in step, and so does
    every method, [login] included, as long as the tokens the network
    hands out are strings. *)
Theorem credential_in_sync :
  string_tokens →
  (∀ storage, in_sync (new_ApiClient storage))
  ∧ (∀ w, in_sync (logout w).2)
  ∧ (∀ c w, in_sync w → in_sync (perform c w).2).
Proof using Type.
  intros Hstr. split; [done|]. split.
  { intros w. unfold in_sync. simpl. by rewrite lookup_delete_eq. }
  intros c w Hsync. destruct (is_login c) eqn:Hc.
  - destruct c; try done. simpl. rewrite login_unfold.
    destruct (request _ _ _ w) as [out1 w1] eqn:Hreq.
    pose proof (request_frame _ _ _ _ _ _ Hreq) as [Hm Hs].
    assert (in_sync w1) as Hsync1 by (unfold in_sync; by rewrite Hm, Hs).
    destruct out1 as [response|err]; [|done].
    apply request_returns in Hreq as (r & (req & _ & Hnet) & Hr).
    apply read_response_inr in Hr as (_ & _ & Hjson).
    destruct (get_prop response "access_token") as [|tok] eqn:Htok; [done|].
    destruct (js_truthy tok) eqn:Htruthy; [|done].
    destruct (Hstr _ _ _ _ Hnet Hjson Htok Htruthy) as [t ->]. simpl.
    unfold in_sync. simpl. by rewrite lookup_insert_eq.
  - destruct (perform_keeps_credential c w Hc) as [Hm Hs]. unfold in_sync. by rewrite Hm, Hs.
Qed.

(** X9.  [logout] twice is [logout] once, and a client constructed over the
    storage it leaves holds no credential. *)
Theorem logout_idempotent w :
  logout (logout w).2 = (Return tt, (logout w).2)
  ∧ token (new_ApiClient (localStorage (logout w).2)) = VNull.
Proof using Type.
  split.
  - unfold logout, removeItem. unfold_monad. unfold set_localStorage, set_token. simpl.
    by rewrite delete_delete_eq.
  - simpl. by rewrite lookup_delete_eq.
Qed.

(** ** More of the hooks *)

Lemma in_browser_frame {A} (m : M world A) p : hook_frame p (in_browser m p).2.
Proof using Type. unfold in_browser, lift. by destruct (m (browser p)). Qed.

Lemma ApiClient_instance_client_like : client_like ApiClient_instance.
Proof using Type. repeat split; intros; apply in_browser_frame. Qed.

Lemma ApiClient_class_client_like : client_like ApiClient_class.
Proof using Type. repeat split. Qed.

(** X10.  The hook's [getCurrentUser], over the class as over an instance:
    whatever the lookup does, [loading] is false afterwards and [error] is
    never written; a profile that arrives becomes the [user]; a lookup
    that throws is logged to the console, leaves the [user] as it was, and
    the call throws only if the [logout] that follows does. *)
Theorem useAuth_getCurrentUser_outcomes imported p :
  client_like imported →
  let result := useAuth_getCurrentUser imported p in
  loading result.2 = false
  ∧ error result.2 = error p
  ∧ unhandled result.2 = unhandled p
  ∧ (∀ userData p1,
       call_getCurrentUser imported p = (Return userData, p1) →
       result.1 = Return tt ∧ user result.2 = userData
       ∧ browser result.2 = browser p1)
  ∧ (∀ err p1,
       call_getCurrentUser imported p = (Throw err, p1) →
       user result.2 = user p
       ∧ result.1 =
         (call_logout imported
            (set_browser (log_console "Failed to get current user:" err (browser p1))
                         p1)).1).
Proof using Type.
  intros (_ & Hget & _ & _ & Hout) result. subst result.
  unfold useAuth_getCurrentUser. unfold_hook.
  specialize (Hget p). destruct (call_getCurrentUser imported p) as [[userData|err] p1];
    destruct Hget as (Hu & Hl & He & Hun); simpl in *.
  - repeat split; intros; simplify_eq/=; done.
  - match goal with |- context [call_logout imported ?q] =>
      specialize (Hout q); destruct (call_logout imported q) as [[[]|e] p2] eqn:E
    end; destruct Hout as (Hu2 & Hl2 & He2 & Hun2); simpl in *;
      repeat split; intros; simplify_eq/=; rewrite ?E; simpl; congruence.
Qed.

(** X11.  The hook's [login] over an instance of the client.  If the client's
    [login] throws, the hook throws the same error, records its message in
    [error] and makes no further call.  If it returns, the hook returns its
    response with [error] cleared, whatever the profile lookup that
    follows does: a profile that arrives becomes the [user]; a lookup that
    throws is swallowed and logs the client out again, so the call reports
    success while the credential it just stored is gone. *)
Theorem useAuth_login_outcomes username password p :
  let result := useAuth_login ApiClient_instance username password p in
  match login username password (browser p) with
  | (Throw err, w1) =>
      result.1 = Throw err
      ∧ error result.2 = VStr (err_message err)
      ∧ user result.2 = user p
      ∧ loading result.2 = loading p
      ∧ browser result.2 = w1
  | (Return response, w1) =>
      result.1 = Return response
      ∧ error result.2 = VNull
      ∧ loading result.2 = false
      ∧ unhandled result.2 = unhandled p
      ∧ match getCurrentUser w1 with
        | (Return userData, w2) =>
            user result.2 = userData ∧ browser result.2 = w2
        | (Throw err, w2) =>
            user result.2 = user p
            ∧ token (browser result.2) = VNull
            ∧ localStorage (browser result.2) = delete "token" (localStorage w2)
            ∧ sent (browser result.2) = sent w2
        end
  end.
Proof using Type.
  intros result. subst result.
  unfold useAuth_login, useAuth_getCurrentUser. unfold_hook.
  destruct (login username password (browser p)) as [[response|err] w1]; unfold_hook;
    [|done].
  destruct (getCurrentUser w1) as [[userData|err] w2]; unfold_hook; [done|].
  unfold logout, removeItem. unfold_hook. done.
Qed.



(** *** The data hooks *)

(** X12.  [useApi]: [fetchData] never throws and always ends with [loading]
    false; a result that arrives becomes [data] and clears [error]; a call
    that throws leaves [data] as it was and puts the message in [error]. *)
Theorem useApi_fetchData_outcomes (apiCall : M page value) p s :
  let result := useApi_fetchData apiCall (p, s) in
  result.1 = Return tt
  ∧ result.2.1 = (apiCall p).2
  ∧ api_loading result.2.2 = false
  ∧ match (apiCall p).1 with
    | Return data => api_data result.2.2 = data ∧ api_error result.2.2 = VNull
    | Throw err =>
        api_data result.2.2 = api_data s
        ∧ api_error result.2.2 = VStr (err_message err)
    end.
Proof using Type.
  intros result. subst result. unfold useApi_fetchData, on_page, set_state. unfold_monad.
  by destruct (apiCall p) as [[data|err] p'].
Qed.

(** [fetchProducts], by the outcome of the call it makes. *)
Lemma fetchProducts_cases imported filters p s :
  let result := useProducts_fetchProducts imported filters (p, s) in
  result.1 = Return tt
  ∧ result.2.1 = (call_getProducts imported filters p).2
  ∧ products_loading result.2.2 = false
  ∧ categories result.2.2 = categories s
  ∧ match (call_getProducts imported filters p).1 with
    | Return data =>
        products result.2.2 = data ∧ products_error result.2.2 = products_error s
    | Throw err =>
        products result.2.2 = products s
        ∧ products_error result.2.2 = VStr (err_message err)
    end.
Proof using Type.
  intros result. subst result.
  unfold useProducts_fetchProducts, on_page, set_state. unfold_monad.
  by destruct (call_getProducts imported filters p) as [[data|err] p'].
Qed.

(** X13.  [useProducts]: [fetchProducts] never throws, always ends with
    [loading] false and never touches [categories]; products that arrive
    replace the list and leave [error] as it was, an earlier message
    included; a call that throws leaves the list as it was and puts the
    message in [error]. *)
Theorem useProducts_fetchProducts_outcomes imported filters p s :
  let result := useProducts_fetchProducts imported filters (p, s) in
  result.1 = Return tt
  ∧ result.2.1 = (call_getProducts imported filters p).2
  ∧ products_loading result.2.2 = false
  ∧ categories result.2.2 = categories s
  ∧ match (call_getProducts imported filters p).1 with
    | Return data =>
        products result.2.2 = data ∧ products_error result.2.2 = products_error s
    | Throw err =>
        products result.2.2 = products s
        ∧ products_error result.2.2 = VStr (err_message err)
    end.
Proof using Type. apply fetchProducts_cases. Qed.

(** X14.  [useProducts]: [fetchCategories] never throws; categories that arrive
    replace the list; a call that throws changes nothing in the state of
    the hook, [error] included, and is only logged to the console. *)
Theorem useProducts_fetchCategories_outcomes imported p s :
  let result := useProducts_fetchCategories imported (p, s) in
  result.1 = Return tt
  ∧ match call_getCategories imported p with
    | (Return data, p') =>
        result.2 = (p', mkProductsState (products s) data (products_loading s)
                                        (products_error s))
    | (Throw err, p') =>
        result.2.2 = s
        ∧ console (browser result.2.1)
          = (console (browser p') ++ [("Failed to fetch categories:", err)])%list
    end.
Proof using Type.
  intros result. subst result.
  unfold useProducts_fetchCategories, on_page, set_state. unfold_hook.
  by destruct (call_getCategories imported p) as [[data|err] p'].
Qed.

(** X15.  [useOrders]: with a falsy [userId] the effect calls nothing and leaves
    the state as it is, [loading] included; with a truthy one it fetches:
    it never throws, leaves nothing unhandled and ends with [loading]
    false, with the orders that arrived, or with the list as it was and
    the message in [error]. *)
Theorem useOrders_effect_outcomes imported userId p s :
  let result := useOrders_effect imported userId (p, s) in
  result.1 = Return tt
  ∧ if js_truthy userId
    then result.2.1 = (call_getUserOrders imported userId p).2
         ∧ orders_loading result.2.2 = false
         ∧ match (call_getUserOrders imported userId p).1 with
           | Return data =>
               orders result.2.2 = data ∧ orders_error result.2.2 = orders_error s
           | Throw err =>
               orders result.2.2 = orders s
               ∧ orders_error result.2.2 = VStr (err_message err)
           end
    else result.2 = (p, s).
Proof using Type.
  intros result. subst result. unfold useOrders_effect.
  destruct (js_truthy userId); [|done].
  unfold useOrders_fetchOrders, on_page, set_state. unfold_monad.
  by destruct (call_getUserOrders imported userId p) as [[data|err] p'].
Qed.

(** X16.  [useProducts] over an instance of the client: when the server answers
    the request for the products with a JSON body, a status that is no
    success and a non-empty [detail], that text is what the hook shows in
    [error]; the list stays as it was and [loading] ends false. *)
Theorem useProducts_shows_detail filters p s r data detail :
  let result := useProducts_fetchProducts ApiClient_instance_data filters (p, s) in
  answered_by (browser p) (browser result.2.1) r →
  is_json_type (content_type r) = true → ok r = false →
  json r = inr data → get_prop data "detail" = inr (VStr detail) → detail ≠ "" →
  products_error result.2.2 = VStr detail
  ∧ products result.2.2 = products s
  ∧ products_loading result.2.2 = false.
Proof using Type.
  intros result Hans Hct Hok Hjson Hdetail Hne.
  destruct (fetchProducts_cases ApiClient_instance_data filters p s)
    as (_ & Hpage & Hload & _ & Hcase).
  fold result in Hpage, Hload, Hcase. rewrite Hpage in Hans.
  split; [|split; [|done]].
  all: simpl in Hans, Hcase; unfold in_browser, lift in Hans, Hcase;
    unfold getProducts in Hans, Hcase; rewrite eval_then_request in Hans, Hcase;
    destruct (URLSearchParams _) as [err|query];
    [destruct Hans as (req & Hsent & _); simpl in Hsent;
     by apply app_singleton_neq in Hsent|].
  all: destruct (request _ _ _ (browser p)) as [out w'] eqn:Hrun;
    simpl in Hans, Hcase;
    rewrite (request_answered _ _ _ _ _ _ _ Hrun Hans) in Hcase;
    rewrite (read_response_detail r data (VStr detail)) in Hcase by done;
    simpl in Hcase; destruct (String.eqb_spec detail "") as [|_]; [done|];
    simpl in Hcase; by destruct Hcase.
Qed.

(** X17.  The login form: [handleSubmit] never throws and never changes the
    mode or the data of the form.  If the call it submits throws, the
    profile is not looked up, the message of that error is shown, and the
    user and the view of the application stay as they were.  If it returns
    and the lookup of the profile throws, the message of that error is
    shown, user and view again as they were.  If both return, the message
    is empty, the profile that arrived is the user of the application and
    the view is [home]. *)
Theorem handleSubmit_outcomes imported p s :
  let result := handleSubmit imported (p, s) in
  result.1 = Return tt
  ∧ isLogin result.2.2 = isLogin s
  ∧ formData result.2.2 = formData s
  ∧ match submitted_call imported s p with
    | (Throw err, p1) =>
        result.2.1 = p1
        ∧ formError result.2.2 = VStr (err_message err)
        ∧ app_user result.2.2 = app_user s
        ∧ currentView result.2.2 = currentView s
    | (Return _, p1) =>
        match call_getCurrentUser imported p1 with
        | (Return userData, p2) =>
            result.2.1 = p2
            ∧ formError result.2.2 = VStr ""
            ∧ app_user result.2.2 = userData
            ∧ currentView result.2.2 = VStr "home"
        | (Throw err, p2) =>
            result.2.1 = p2
            ∧ formError result.2.2 = VStr (err_message err)
            ∧ app_user result.2.2 = app_user s
            ∧ currentView result.2.2 = currentView s
        end
    end.
Proof using Type.
  intros result. subst result.
  unfold handleSubmit, submitted_call, setFormError, setAppUser, setCurrentView,
    on_page, set_state.
  unfold_monad.
  destruct (isLogin s) eqn:Hmode; simpl.
  - destruct (get_prop (formData s) "username") as [e|u]; simpl; [done|].
    destruct (get_prop (formData s) "password") as [e|pw]; simpl; [done|].
    destruct (useAuth_login imported u pw p) as [[r|e] p1]; simpl; [|done].
    by destruct (call_getCurrentUser imported p1) as [[userData|e] p2].
  - destruct (useAuth_register imported (formData s) p) as [[r|e] p1]; simpl;
      [|done].
    by destruct (call_getCurrentUser imported p1) as [[userData|e] p2].
Qed.

(** ** The application *)

(** *** The views *)

Lemma is_text_spec v text : is_text v text = true ↔ v = VStr text.
Proof using Type.
  destruct v; simpl; try (split; [done|congruence]).
  destruct (String.eqb_spec s text); split; congruence.
Qed.

(** X18.  [renderView], view by view: the orders and the profile are shown only
    under their own names and only to a user; without a user those two
    names give the login form, as does the name [login]; the cart is shown
    to anyone; every other value of [currentView] gives the product
    list. *)
Theorem renderView_views user currentView :
  (renderView user currentView = Orders
     ↔ currentView = VStr "orders" ∧ js_truthy user = true)
  ∧ (renderView user currentView = Profile
     ↔ currentView = VStr "profile" ∧ js_truthy user = true)
  ∧ (renderView user currentView = Cart ↔ currentView = VStr "cart")
  ∧ (renderView user currentView = LoginForm
     ↔ currentView = VStr "login"
       ∨ (js_truthy user = false
          ∧ (currentView = VStr "orders" ∨ currentView = VStr "profile")))
  ∧ (renderView user currentView = ProductList
     ↔ currentView ≠ VStr "login" ∧ currentView ≠ VStr "cart"
       ∧ currentView ≠ VStr "orders" ∧ currentView ≠ VStr "profile").
Proof using Type.
  forget_env.
  unfold renderView.
  pose proof (is_text_spec currentView "profile") as Hp.
  pose proof (is_text_spec currentView "orders") as Ho.
  pose proof (is_text_spec currentView "login") as Hl.
  pose proof (is_text_spec currentView "cart") as Hc.
  destruct (js_truthy user), (is_text currentView "profile"),
    (is_text currentView "orders"), (is_text currentView "login"),
    (is_text currentView "cart"); simpl;
    repeat match goal with H : _ ↔ _ |- _ => destruct H end;
    repeat match goal with
           | H : true = true → _ |- _ => specialize (H eq_refl)
           end;
    subst; repeat split; try done; try (intros; intuition congruence).
Qed.

(** *** The cart *)

Lemma find_id_None id (prev : list cart_item) :
  find (λ item, bool_decide (item_id item = id)) prev = None
  ↔ id ∉ map item_id prev.
Proof using Type.
  forget_env.
  induction prev as [|x prev IH]; simpl.
  - split; [intros _ []%elem_of_nil|done].
  - rewrite not_elem_of_cons. case_bool_decide; [|rewrite IH]; intuition congruence.
Qed.

Lemma ids_map_quantity id (f : cart_item → num) (prev : list cart_item) :
  map item_id
    (map (λ item, if bool_decide (item_id item = id)
                  then with_quantity (f item) item else item) prev)
  = map item_id prev.
Proof using Type.
  induction prev as [|x prev IH]; simpl; [done|].
  rewrite IH. by case_bool_decide.
Qed.

Lemma ids_filter id (prev : list cart_item) x :
  x ∈ map item_id (filter (λ item, item_id item ≠ id) prev)
  ↔ x ≠ id ∧ x ∈ map item_id prev.
Proof using Type.
  forget_env.
  induction prev as [|y prev IH]; simpl.
  - rewrite elem_of_nil. tauto.
  - rewrite filter_cons. case_decide; simpl; rewrite ?elem_of_cons, IH;
      intuition congruence.
Qed.

Lemma NoDup_ids_filter id (prev : list cart_item) :
  NoDup (map item_id prev) →
  NoDup (map item_id (filter (λ item, item_id item ≠ id) prev)).
Proof using Type.
  forget_env.
  induction prev as [|x prev IH]; simpl; [done|].
  rewrite NoDup_cons. intros [Hx Hnd].
  rewrite filter_cons. case_decide; simpl; [|by apply IH].
  apply NoDup_cons. split; [|by apply IH].
  rewrite ids_filter. tauto.
Qed.

(** X19.  The cart never holds two lines for the same product: if the ids of
    its lines are distinct, they still are after [addToCart],
    [removeFromCart] and [updateCartItem]. *)
Theorem cart_lines_distinct p id q prev :
  NoDup (map item_id prev) →
  NoDup (map item_id (App_addToCart p prev))
  ∧ NoDup (map item_id (App_removeFromCart id prev))
  ∧ NoDup (map item_id (App_updateCartItem id q prev)).
Proof using Type.
  intros Hnd. split; [|split].
  - unfold App_addToCart.
    destruct (find _ prev) eqn:Hfind.
    + by rewrite ids_map_quantity.
    + apply find_id_None in Hfind. rewrite map_app. simpl.
      apply NoDup_app. split; [done|]. split; [|apply NoDup_singleton].
      intros x Hx ->%list_elem_of_singleton. done.
  - by apply NoDup_ids_filter.
  - unfold App_updateCartItem. destruct (is_zero q).
    + by apply NoDup_ids_filter.
    + by rewrite ids_map_quantity.
Qed.

Lemma elem_of_map_quantity id (f : cart_item → num) (prev : list cart_item) item :
  item ∈ map (λ item, if bool_decide (item_id item = id)
                      then with_quantity (f item) item else item) prev
  ↔ ∃ old, old ∈ prev
           ∧ item = if bool_decide (item_id old = id)
                    then with_quantity (f old) old else old.
Proof using Type.
  induction prev as [|x prev IH]; simpl.
  - rewrite elem_of_nil. split; [done|]. by intros (? & []%elem_of_nil & _).
  - rewrite elem_of_cons, IH. split.
    + intros [->|(old & Hin & ->)]; [exists x|exists old]; rewrite elem_of_cons; eauto.
    + intros (old & [->|Hin]%elem_of_cons & ->); [by left|right; by exists old].
Qed.

(** X20.  [addToCart]: afterwards the cart has a line for the product, and the
    lines of the other products are exactly those it had.  A product that
    was not in the cart gets a new line at the end, with quantity 1; for a
    product that was, no line is added and the quantity of its line goes
    up by one. *)
Theorem App_addToCart_lines p prev :
  let next := App_addToCart p prev in
  product_id p ∈ map item_id next
  ∧ (∀ item, item_id item ≠ product_id p → item ∈ next ↔ item ∈ prev)
  ∧ (product_id p ∉ map item_id prev →
     next = (prev ++ [mkItem (product_id p) num_one (product_fields p)])%list)
  ∧ (product_id p ∈ map item_id prev →
     length next = length prev
     ∧ map item_id next = map item_id prev
     ∧ ∀ item, item ∈ prev → item_id item = product_id p →
               with_quantity (plus_one (quantity item)) item ∈ next).
Proof using Type.
  intros next. subst next. unfold App_addToCart.
  destruct (find _ prev) eqn:Hfind.
  - assert (product_id p ∈ map item_id prev) as Hin.
    { destruct (decide (product_id p ∈ map item_id prev)) as [|Hn]; [done|].
      apply find_id_None in Hn. congruence. }
    split; [by rewrite ids_map_quantity|]. split; [|split; [by intros ?|]].
    + intros item Hne. rewrite elem_of_map_quantity. split.
      * intros (old & Hold & ->). case_bool_decide; [|done].
        by destruct Hne.
      * intros Hitem. exists item. split; [done|]. by rewrite bool_decide_false.
    + intros _. split; [by rewrite length_map|]. split; [apply ids_map_quantity|].
      intros item Hitem Hid. apply elem_of_map_quantity. exists item.
      split; [done|]. by rewrite bool_decide_true.
  - apply find_id_None in Hfind. split; [|split; [|split; [done|by intros ?]]].
    + rewrite map_app. apply elem_of_app. right. simpl. by left.
    + intros item Hne. rewrite elem_of_app, list_elem_of_singleton. split; [|by left].
      intros [? | ->]; [done|]. by destruct Hne.
Qed.

(** X21.  [removeFromCart]: afterwards the cart has no line for the id and
    exactly the other lines it had, in the order they were in; removing
    again, or removing an id that has no line, changes nothing; and
    [updateCartItem] with a quantity that is zero is this removal. *)
Theorem App_removeFromCart_lines id prev :
  let next := App_removeFromCart id prev in
  (id ∉ map item_id next)
  ∧ (∀ item, item ∈ next ↔ item ∈ prev ∧ item_id item ≠ id)
  ∧ next `sublist_of` prev
  ∧ App_removeFromCart id next = next
  ∧ (id ∉ map item_id prev → next = prev)
  ∧ (∀ q, is_zero q = true → App_updateCartItem id q prev = next).
Proof using Type.
  forget_env.
  intros next. subst next. unfold App_removeFromCart, App_updateCartItem.
  split; [rewrite ids_filter; tauto|]. split; [|split; [|split; [|split]]].
  - intros item. rewrite list_elem_of_filter. tauto.
  - apply sublist_filter.
  - rewrite list_filter_filter. apply list_filter_iff. tauto.
  - intros Hnot. induction prev as [|x prev IH]; [done|].
    simpl in Hnot. apply not_elem_of_cons in Hnot as [Hx Hnot].
    rewrite filter_cons_True by done. by rewrite IH.
  - by intros q ->.
Qed.

(** X22.  [updateCartItem] with a quantity that is not zero: the cart keeps its
    lines and their order, every line of the id now has the quantity
    given, the other lines are as they were, and an id that has no line
    gets none. *)
Theorem App_updateCartItem_lines id q prev :
  is_zero q = false →
  let next := App_updateCartItem id q prev in
  map item_id next = map item_id prev
  ∧ (∀ item, item ∈ next → item_id item = id → quantity item = q)
  ∧ (∀ item, item ∈ prev → item_id item = id → with_quantity q item ∈ next)
  ∧ (∀ item, item_id item ≠ id → item ∈ next ↔ item ∈ prev)
  ∧ (id ∉ map item_id prev → next = prev).
Proof using Type.
  intros Hq next. subst next. unfold App_updateCartItem. rewrite Hq.
  split; [apply ids_map_quantity|]. split; [|split; [|split]].
  - intros item (old & Hold & ->)%elem_of_map_quantity Hid.
    case_bool_decide as Hd; [done|]. by destruct Hd.
  - intros item Hitem Hid. apply (elem_of_map_quantity id (λ _, q)).
    exists item. split; [done|]. by rewrite bool_decide_true.
  - intros item Hne. rewrite (elem_of_map_quantity id (λ _, q)). split.
    + intros (old & Hold & ->). case_bool_decide; [|done]. by destruct Hne.
    + intros Hitem. exists item. split; [done|]. by rewrite bool_decide_false.
  - intros Hnot. induction prev as [|x prev IH]; [done|].
    simpl in Hnot. apply not_elem_of_cons in Hnot as [Hx Hnot]. simpl.
    rewrite bool_decide_false by done. by rewrite IH.
Qed.

End Client.

(** ** Examples *)

(** C4 at a gateway error page: status 502, an HTML content type, and a
    body that is no JSON. *)
Lemma request_non_json_raises_witness :
  let r := mkResponse 502 "Bad Gateway" (Some "text/html")
             (inl (mkError "SyntaxError" "Unexpected token <")) in
  (request Z_truthy Z_to_string (answers [FetchResolve r])
     "http://localhost:8001" "/products" no_options (new_ApiClient ∅)).1
  = Throw (Error "Server returned 502: Bad Gateway").
Proof.
  intros r.
  pose proof (request_non_json_raises Z_truthy Z_to_string (answers [FetchResolve r])
                "http://localhost:8001" "/products" no_options (new_ApiClient ∅)
                _ _ r (surjective_pairing _)) as H.
  destruct H as [Hout _]; [eexists; split; reflexivity|reflexivity|].
  exact Hout.
Defined.

(** C1 at a rejected login: status 401 with a [detail]. *)
Lemma request_outcome_witness :
  let r := json_response 401 "Unauthorized"
             (VObj [("detail", VStr "Incorrect username or password")]) in
  (request Z_truthy Z_to_string (answers [FetchResolve r])
     "http://localhost:8000" "/auth/login" no_options (new_ApiClient ∅)).1
  = Throw (Error "Incorrect username or password").
Proof.
  intros r.
  pose proof (request_outcome Z_truthy Z_to_string (answers [FetchResolve r])
                "http://localhost:8000" "/auth/login" no_options (new_ApiClient ∅)
                _ _ (surjective_pairing _)) as (_ & _ & _ & H).
  destruct (H r) as [_ Hdetail]; [eexists; split; reflexivity|reflexivity|reflexivity|].
  destruct (Hdetail _ _ eq_refl eq_refl) as [Hstr _].
  exact (Hstr _ eq_refl ltac:(discriminate)).
Defined.

(** C1 as first stated fails on a [detail] that is present and empty: the
    message is the generic one, not the field. *)
Lemma request_empty_detail_counterexample :
  let body := VObj [("detail", VStr "")] : value Z in
  let r := json_response 400 "Bad Request" body in
  let out := (request Z_truthy Z_to_string (answers [FetchResolve r])
                "http://localhost:8000" "/auth/login" no_options
                (new_ApiClient ∅)).1 in
  is_json_type (content_type r) = true
  ∧ ok r = false
  ∧ get_prop body "detail" = inr (VStr "")
  ∧ out = Throw (Error "HTTP error! status: 400")
  ∧ out ≠ Throw (Error "").
Proof. vm_compute. repeat split; discriminate. Qed.

(** C2 with a credential restored from storage. *)
Lemma request_authorization_witness :
  let w := new_ApiClient {[ "token" := "t0" ]} : world Z in
  ∃ req,
    sent (request Z_truthy Z_to_string (answers []) "http://localhost:8001"
            "/products" no_options w).2 = [req]
    ∧ req_headers req !! "Authorization" = Some "Bearer t0".
Proof.
  intros w.
  pose proof (request_authorization Z_truthy Z_to_string (answers [])
                "http://localhost:8001" "/products" no_options w
                _ _ (surjective_pairing _)) as (_ & _ & _ & H).
  exact (H {[ "token" := "t0" ]} "t0" eq_refl eq_refl ltac:(discriminate)).
Defined.

(** C2 as first stated fails when the caller brings an [Authorization]
    header of its own: no credential is held, and the request carries
    one. *)
Lemma request_caller_header_counterexample :
  let opts := mkOptions None None (Some {[ "Authorization" := "Bearer stale" ]}) in
  let w := new_ApiClient ∅ : world Z in
  token w = VNull
  ∧ ∃ req,
      sent (request Z_truthy Z_to_string (answers []) "http://localhost:8001"
              "/products" opts w).2 = [req]
      ∧ req_headers req !! "Authorization" = Some "Bearer stale".
Proof. split; [reflexivity|]. eexists. split; reflexivity. Qed.

(** C5 fails on the code: with caller-supplied headers the request carries
    exactly those, and the default content type is lost. *)
Lemma request_drops_default_content_type :
  let opts := mkOptions None None (Some {[ "X-Trace" := "1" ]}) in
  ∃ req,
    sent (request Z_truthy Z_to_string (answers []) "http://localhost:8001"
            "/products" opts (new_ApiClient ∅)).2 = [req]
    ∧ req_headers req = {[ "X-Trace" := "1" ]}
    ∧ req_headers req !! "Content-Type" = None.
Proof. eexists. split; [reflexivity|]. split; reflexivity. Qed.

(** C3 at the example of the specification: [login("alice", "pw123")]
    answered with status 200 and [{access_token: "t1"}], followed by
    [getProducts({})]. *)
Lemma login_stores_token_witness :
  let net := answers [FetchResolve (json_response 200 "OK"
                                      (VObj [("access_token", VStr "t1")]))] in
  let w' := (login Z_truthy Z_to_string sample_stringify ∅ net
               (VStr "alice") (VStr "pw123") (new_ApiClient ∅)).2 in
  token w' = VStr "t1"
  ∧ localStorage w' !! "token" = Some "t1"
  ∧ ∃ req,
      sent (getProducts Z_truthy Z_to_string sample_URLSearchParams ∅ net
              (VObj []) w').2 = (sent w' ++ [req])%list
      ∧ req_headers req !! "Authorization" = Some "Bearer t1".
Proof.
  intros net w'.
  pose proof (login_stores_token Z_truthy Z_to_string sample_stringify
                sample_URLSearchParams ∅ net (VStr "alice") (VStr "pw123")
                (new_ApiClient ∅) _ _
                (json_response 200 "OK" (VObj [("access_token", VStr "t1")]))
                (VObj [("access_token", VStr "t1")]) "t1"
                (surjective_pairing _)) as H.
  destruct H as (_ & Hmem & Hsto & _ & Hnext);
    [eexists; split; reflexivity|reflexivity|reflexivity|reflexivity|reflexivity
    |discriminate|].
  split; [exact Hmem|]. split; [subst w'; rewrite Hsto; reflexivity|].
  destruct (Hnext (GetProducts (VObj []))) as [[err Herr]|Hreq]; [discriminate|].
  exact Hreq.
Defined.

(** C9 at a login answered with a body that has no token: a session held
    before stays. *)
Lemma login_without_token_witness :
  let net := answers [FetchResolve (json_response 200 "OK"
                                      (VObj [("message", VStr "ok")]))] in
  let w := new_ApiClient {[ "token" := "old" ]} : world Z in
  let result := login Z_truthy Z_to_string sample_stringify ∅ net
                  (VStr "alice") (VStr "pw123") w in
  result.1 = Return (VObj [("message", VStr "ok")])
  ∧ token result.2 = VStr "old"
  ∧ localStorage result.2 = {[ "token" := "old" ]}.
Proof.
  intros net w result.
  exact (login_without_token Z_truthy Z_to_string sample_stringify ∅ net
           (VStr "alice") (VStr "pw123") w _ _
           (json_response 200 "OK" (VObj [("message", VStr "ok")]))
           (VObj [("message", VStr "ok")]) VUndefined
           (surjective_pairing _)
           (ex_intro _ _ (conj eq_refl eq_refl)) eq_refl eq_refl eq_refl eq_refl
           eq_refl).
Defined.

(** C9 as first stated fails on the body [null], which has no
    [access_token] either: reading the property throws. *)
Lemma login_null_body_counterexample :
  let r := json_response 200 "OK" VNull in
  let result := login Z_truthy Z_to_string sample_stringify ∅
                  (answers [FetchResolve r]) (VStr "alice") (VStr "pw123")
                  (new_ApiClient ∅) in
  is_json_type (content_type r) = true
  ∧ ok r = true
  ∧ json r = inr VNull
  ∧ result.1 =
    Throw (TypeError "Cannot read properties of null (reading 'access_token')")
  ∧ result.1 ≠ Return VNull.
Proof. vm_compute. repeat split; discriminate. Qed.

(** C7 at a registration that succeeds: the client still holds nothing. *)
Lemma register_no_session_witness :
  let body := VObj [("id", VNum 7%Z); ("username", VStr "alice")] in
  let net := answers [FetchResolve (json_response 201 "Created" body)] in
  let result := register Z_truthy Z_to_string sample_stringify ∅ net
                  (VObj [("username", VStr "alice"); ("password", VStr "pw123")])
                  (new_ApiClient ∅) in
  result.1 = Return body
  ∧ token result.2 = VNull
  ∧ localStorage result.2 = ∅.
Proof.
  intros body net result.
  pose proof (register_no_session Z_truthy Z_to_string sample_stringify ∅ net
                (VObj [("username", VStr "alice"); ("password", VStr "pw123")])
                (new_ApiClient ∅) _ _ (surjective_pairing _)) as (Hm & Hs & Hret).
  split; [|split; [exact Hm|exact Hs]].
  apply Hret. eexists. split; [eexists; split; reflexivity|]. by vm_compute.
Defined.

(** C8 fails on the code.  At start-up with a stored credential the hook
    calls [getCurrentUser] and then [logout] on the class object: both
    throw a [TypeError], nothing is sent, the second error is left
    unhandled, and the credential is still in storage. *)
Lemma useAuth_effect_keeps_credential :
  let p := initial_page (new_ApiClient {[ "token" := "t0" ]}) : @page Z in
  let result := useAuth_effect Z_truthy apiClient p in
  result.1 = Return tt
  ∧ localStorage (browser result.2) !! "token" = Some "t0"
  ∧ statics result.2 !! "token" = Some (VStr "t0")
  ∧ sent (browser result.2) = []
  ∧ console (browser result.2) =
    [("Failed to get current user:",
      TypeError "apiClient.getCurrentUser is not a function")]
  ∧ unhandled result.2 = [TypeError "apiClient.logout is not a function"].
Proof. vm_compute. repeat split. Qed.

(** As the program has it, the hook's [register] calls [register] on the
    class object: that call never returns, it throws a [TypeError] before
    anything is sent, and the hook records the message and throws it on. *)
Lemma useAuth_register_never_sends :
  let userData := VObj [("username", VStr "alice"); ("email", VStr "a@example.org");
                        ("password", VStr "pw123"); ("full_name", VStr "Alice")] in
  let p := initial_page (new_ApiClient ∅) : @page Z in
  let result := useAuth_register apiClient userData p in
  result.1 = Throw (TypeError "apiClient.register is not a function")
  ∧ sent (browser result.2) = []
  ∧ token (browser result.2) = VNull
  ∧ localStorage (browser result.2) = ∅
  ∧ error result.2 = VStr "apiClient.register is not a function".
Proof. vm_compute. repeat split. Qed.

(** The hook over an instance, at a stored credential that the server no
    longer accepts: the session is dropped. *)
Lemma useAuth_effect_on_instance_witness :
  let net := answers [FetchResolve (json_response 401 "Unauthorized"
                        (VObj [("detail", VStr "Could not validate credentials")]))] in
  let p := initial_page (new_ApiClient {[ "token" := "t0" ]}) : @page Z in
  ∃ p', useAuth_effect Z_truthy
          (ApiClient_instance Z_truthy Z_to_string sample_stringify ∅ net) p
        = (Return tt, p')
        ∧ token (browser p') = VNull
        ∧ localStorage (browser p') !! "token" = None
        ∧ error p' = VNull
        ∧ unhandled p' = [].
Proof.
  intros net p.
  destruct (useAuth_effect_on_instance Z_truthy Z_to_string sample_stringify ∅ net
              p "t0" _ _ eq_refl ltac:(discriminate) eq_refl)
    as (p' & Hrun & Hm & Hs & _ & He & _ & Hu).
  exists p'. split; [exact Hrun|]. split; [exact Hm|].
  split; [rewrite Hs; reflexivity|]. split; [exact He|exact Hu].
Defined.

(** The hook over an instance, at a registration that the server accepts:
    the login follows and the session is established. *)
Lemma useAuth_register_on_instance_witness :
  let userData := VObj [("username", VStr "alice"); ("password", VStr "pw123")] in
  let created := VObj [("id", VNum 7%Z); ("username", VStr "alice")] in
  let net := answers [FetchResolve (json_response 201 "Created" created);
                      FetchResolve (json_response 200 "OK"
                                      (VObj [("access_token", VStr "t1")]));
                      FetchResolve (json_response 200 "OK"
                                      (VObj [("username", VStr "alice")]))] in
  let result := useAuth_register
                  (ApiClient_instance Z_truthy Z_to_string sample_stringify ∅ net)
                  userData (initial_page (new_ApiClient ∅)) in
  result.1 = Return created
  ∧ token (browser result.2) = VStr "t1"
  ∧ user result.2 = VObj [("username", VStr "alice")].
Proof.
  intros userData created net result. subst result.
  set (p := initial_page (new_ApiClient ∅) : @page Z).
  assert (register Z_truthy Z_to_string sample_stringify ∅ net userData (browser p)
          = (Return created,
             (register Z_truthy Z_to_string sample_stringify ∅ net userData
                (browser p)).2)) as Hreg by (vm_compute; reflexivity).
  rewrite (useAuth_register_on_instance Z_truthy Z_to_string sample_stringify ∅ net
             userData (VStr "alice") (VStr "pw123") p _ _ Hreg eq_refl eq_refl).
  vm_compute. repeat split.
Defined.

(** ** Further examples *)

(** A server error answered as JSON: the one request goes out, and the
    error is logged once. *)
Lemma request_logs_failure_witness :
  let r := json_response 500 "Internal Server Error"
             (VObj [("detail", VStr "boom")]) in
  let w' := (request Z_truthy Z_to_string (answers [FetchResolve r])
               "http://localhost:8001" "/products" no_options (new_ApiClient ∅)).2 in
  console w' = [("API request failed:", Error "boom")].
Proof.
  intros r w'.
  pose proof (request_logs_failure Z_truthy Z_to_string (answers [FetchResolve r])
                "http://localhost:8001" "/products" no_options (new_ApiClient ∅)
                (Throw (Error "boom")) w' eq_refl) as H.
  simpl in H. destruct H as [[Hsent _]|[_ Hlog]]; [discriminate Hsent|exact Hlog].
Defined.

(** Fetching the cart with a credential held: the credential stays. *)
Lemma perform_frame_witness :
  let w := new_ApiClient {[ "token" := "t0" ]} : world Z in
  let w' := (perform Z_truthy Z_to_string sample_stringify sample_URLSearchParams ∅
               (answers []) GetCartItems w).2 in
  token w' = VStr "t0" ∧ localStorage w' = {[ "token" := "t0" ]}.
Proof.
  intros w w'.
  exact (perform_frame Z_truthy Z_to_string sample_stringify sample_URLSearchParams ∅
           (answers []) GetCartItems w eq_refl).
Defined.

(** The stock of product 42 is asked of the inventory service. *)
Lemma perform_target_witness :
  ∃ service,
    service ∈ services ∅
    ∧ String.prefix service "http://localhost:8005/products/42/stock" = true.
Proof.
  exact (perform_target Z_truthy Z_to_string sample_stringify sample_URLSearchParams ∅
           (answers []) (GetInventory (VNum 42%Z)) (new_ApiClient ∅)
           (mkRequest "http://localhost:8005/products/42/stock" None None
              {[ "Content-Type" := "application/json" ]})
           eq_refl).
Defined.

(** A login with a wrong password, while an older session is held. *)
Lemma login_failure_keeps_session_witness :
  let r := json_response 401 "Unauthorized"
             (VObj [("detail", VStr "Incorrect username or password")]) in
  let w := new_ApiClient {[ "token" := "old" ]} : world Z in
  let result := login Z_truthy Z_to_string sample_stringify ∅
                  (answers [FetchResolve r]) (VStr "alice") (VStr "wrong") w in
  (∃ err, result.1 = Throw err)
  ∧ token result.2 = VStr "old"
  ∧ localStorage result.2 = {[ "token" := "old" ]}.
Proof.
  intros r w result.
  apply (login_failure_keeps_session Z_truthy Z_to_string sample_stringify ∅
           (answers [FetchResolve r]) (VStr "alice") (VStr "wrong") w
           result.1 result.2 (surjective_pairing _)).
  right. exists r. split; [eexists; split; reflexivity|]. by right.
Defined.

(** A network that hands out the string token [t1] to whoever asks first. *)
Lemma sample_tokens_are_strings :
  string_tokens Z_truthy
    (answers [FetchResolve (json_response 200 "OK"
                              (VObj [("access_token", VStr "t1")]))]).
Proof.
  intros log r data tok Hnet Hjson Htok _. unfold answers in Hnet.
  destruct (length log - 1) as [|n]; simpl in Hnet; [|done].
  simplify_eq/=. by exists "t1".
Qed.

(** After a login on that network, a client constructed anew over the
    storage holds the credential the old one held. *)
Lemma credential_in_sync_witness :
  let net := answers [FetchResolve (json_response 200 "OK"
                                      (VObj [("access_token", VStr "t1")]))] in
  let w' := (login Z_truthy Z_to_string sample_stringify ∅ net
               (VStr "alice") (VStr "pw123") (new_ApiClient ∅)).2 in
  token w' = token (new_ApiClient (localStorage w')).
Proof.
  intros net w'.
  destruct (credential_in_sync Z_truthy Z_to_string sample_stringify
              sample_URLSearchParams ∅ net sample_tokens_are_strings)
    as (Hnew & _ & Hperform).
  exact (Hperform (Login (VStr "alice") (VStr "pw123")) (new_ApiClient ∅) (Hnew ∅)).
Defined.

(** The hook's [getCurrentUser] as the program has it, over the class. *)
Lemma useAuth_getCurrentUser_outcomes_witness :
  let p := initial_page (new_ApiClient {[ "token" := "t0" ]}) : @page Z in
  let result := useAuth_getCurrentUser apiClient p in
  loading result.2 = false ∧ error result.2 = VNull ∧ user result.2 = VNull.
Proof.
  intros p result.
  destruct (useAuth_getCurrentUser_outcomes apiClient p ApiClient_class_client_like)
    as (Hl & He & _ & _ & Hfail).
  split; [exact Hl|]. split; [exact He|].
  exact (proj1 (Hfail _ _ eq_refl)).
Defined.

(** A cart of two lines, and the three operations on it. *)
Lemma cart_lines_distinct_witness :
  let prev := [mkItem 1%Z 2%Z "Wireless Headphones"; mkItem 3%Z 1%Z "Running Shoes"] in
  NoDup (map item_id (App_addToCart 1%Z Z.succ (mkProduct 4%Z "Coffee Maker") prev))
  ∧ NoDup (map item_id (App_removeFromCart 3%Z prev))
  ∧ NoDup (map item_id (App_updateCartItem (Z.eqb 0) 3%Z 5%Z prev)).
Proof.
  intros prev.
  apply (cart_lines_distinct 1%Z Z.succ (Z.eqb 0) (mkProduct 4%Z "Coffee Maker")
           3%Z 5%Z prev).
  simpl. apply NoDup_cons. split; [|apply NoDup_singleton].
  intros Hin%list_elem_of_singleton. discriminate Hin.
Defined.

(** Setting the quantity of the first of two lines. *)
Lemma App_updateCartItem_lines_witness :
  let prev := [mkItem 1%Z 2%Z "Wireless Headphones"; mkItem 3%Z 1%Z "Running Shoes"] in
  map item_id (App_updateCartItem (Z.eqb 0) 1%Z 5%Z prev) = [1%Z; 3%Z]
  ∧ mkItem 1%Z 5%Z "Wireless Headphones" ∈ App_updateCartItem (Z.eqb 0) 1%Z 5%Z prev.
Proof.
  intros prev.
  destruct (App_updateCartItem_lines (Z.eqb 0) 1%Z 5%Z prev eq_refl)
    as (Hids & _ & Hset & _).
  split; [exact Hids|].
  apply (Hset (mkItem 1%Z 2%Z "Wireless Headphones")); [|reflexivity].
  apply elem_of_cons. by left.
Defined.

(** The product list behind a server that is over its rate limit. *)
Lemma useProducts_shows_detail_witness :
  let r := json_response 429 "Too Many Requests"
             (VObj [("detail", VStr "Rate limit exceeded")]) in
  let imported := ApiClient_instance_data Z_truthy Z_to_string
                    sample_URLSearchParams ∅ (answers [FetchResolve r]) in
  let s := mkProductsState (VArr []) (VArr []) true VNull in
  let result := useProducts_fetchProducts imported (VObj [])
                  (initial_page (new_ApiClient ∅), s) in
  products_error result.2.2 = VStr "Rate limit exceeded"
  ∧ products result.2.2 = VArr []
  ∧ products_loading result.2.2 = false.
Proof.
  intros r imported s result.
  apply (useProducts_shows_detail Z_truthy Z_to_string sample_URLSearchParams ∅
           (answers [FetchResolve r]) (VObj []) (initial_page (new_ApiClient ∅)) s
           r (VObj [("detail", VStr "Rate limit exceeded")]) "Rate limit exceeded").
  - eexists. split; reflexivity.
  - reflexivity.
  - reflexivity.
  - reflexivity.
  - reflexivity.
  - discriminate.
Defined.

